(** * Multi-grasp roadmap search: integrators, roadmap, goal set, goal
      distance and LPA* of the placement motion planner

    A shallow embedding of
      - [ORCostsAndValidity.cpp]  (ORSceneInterface),
      - the roadmap translation unit (IntegralEdgeCostComputer, Roadmap,
        MultiGraspGoalSet, MGGoalDistance),
      - [LPAStar.h] and the search result helpers,
      - the solution extraction of [MGGraphSearchMP.h],
    followed by the properties established about them.

    Numbers. A C++ [double] is embedded as an exact rational extended with
    the two infinities and a not-a-number value ([dbl]): finite arithmetic
    is exact (no rounding, no overflow, no signed zero), the special values
    follow the IEEE rules the code relies on ([std::isinf], [INFINITY],
    comparisons that are false on NaN).  A [Config] is a vector of finite
    joint values.  The properties below are about control flow, stored
    state and comparisons; statements whose truth would depend on sums or
    products being computed without rounding are not made.

    Calls. A call returns a [res]: a value, a C++ exception, [Abort] for a
    failed [assert] or undefined behaviour, or [OutOfFuel] when a loop has
    used up the bound it was given.  State is passed explicitly.  The
    roadmap's trace log ([Roadmap::Logger]) is only ever written and is
    left out. *)

From Stdlib Require Import QArith Qround ZArith NArith List Bool Lia Lqa.
From stdpp Require Import base option list gmap fin_maps.

(** ** Outcomes of a call *)

(** What a C++ call can end in besides returning. *)
Inductive exn := logic_error | runtime_error | out_of_range.

Inductive res (A : Type) : Type :=
| Ok (a : A)            (* normal return *)
| Throw (e : exn)       (* a C++ exception leaves the call *)
| Abort                 (* failed [assert] or undefined behaviour *)
| OutOfFuel.            (* the loop bound of the embedding was reached *)
Arguments Ok {A} a.
Arguments Throw {A} e.
Arguments Abort {A}.
Arguments OutOfFuel {A}.

Definition rbind {A B} (m : res A) (k : A -> res B) : res B :=
  match m with
  | Ok a => k a
  | Throw e => Throw e
  | Abort => Abort
  | OutOfFuel => OutOfFuel
  end.

Notation "x <~ m ;; k" := (rbind m (fun x => k))
  (at level 100, m at next level, right associativity).

Definition assert (b : bool) : res unit := if b then Ok tt else Abort.

(** ** Doubles *)

Module Dbl.
Local Open Scope Q_scope.

Inductive dbl := Fin (q : Q) | PInf | NInf | NaN.

Definition Qltb (a b : Q) : bool := negb (Qle_bool b a).

Definition INFINITY : dbl := PInf.

Definition isinf (x : dbl) : bool :=
  match x with PInf | NInf => true | _ => false end.

Definition ltb (x y : dbl) : bool :=
  match x, y with
  | NaN, _ | _, NaN => false
  | Fin a, Fin b => Qltb a b
  | NInf, NInf => false
  | NInf, _ => true
  | _, PInf => match x with PInf => false | _ => true end
  | _, _ => false
  end.

Definition gtb (x y : dbl) : bool := ltb y x.

Definition eqb (x y : dbl) : bool :=
  match x, y with
  | Fin a, Fin b => Qeq_bool a b
  | PInf, PInf | NInf, NInf => true
  | _, _ => false
  end.

Definition neb (x y : dbl) : bool := negb (eqb x y).

Definition leb (x y : dbl) : bool := ltb x y || eqb x y.

Definition neg (x : dbl) : dbl :=
  match x with Fin a => Fin (- a) | PInf => NInf | NInf => PInf | NaN => NaN end.

Definition add (x y : dbl) : dbl :=
  match x, y with
  | NaN, _ | _, NaN => NaN
  | Fin a, Fin b => Fin (a + b)
  | PInf, NInf | NInf, PInf => NaN
  | PInf, _ | _, PInf => PInf
  | NInf, _ | _, NInf => NInf
  end.

Definition sub (x y : dbl) : dbl := add x (neg y).

(* sign of a finite value: the infinity [inf * a] goes to *)
Definition signed_inf (positive : bool) : dbl := if positive then PInf else NInf.

Definition mul (x y : dbl) : dbl :=
  match x, y with
  | NaN, _ | _, NaN => NaN
  | Fin a, Fin b => Fin (a * b)
  | Fin a, PInf | PInf, Fin a =>
      if Qeq_bool a 0 then NaN else signed_inf (Qltb 0 a)
  | Fin a, NInf | NInf, Fin a =>
      if Qeq_bool a 0 then NaN else signed_inf (Qltb a 0)
  | PInf, PInf | NInf, NInf => PInf
  | PInf, NInf | NInf, PInf => NInf
  end.

Definition div (x y : dbl) : dbl :=
  match x, y with
  | NaN, _ | _, NaN => NaN
  | Fin a, Fin b =>
      if Qeq_bool b 0
      then (if Qeq_bool a 0 then NaN else signed_inf (Qltb 0 a))
      else Fin (a / b)
  | Fin _, _ => Fin 0
  | PInf, Fin b => signed_inf (Qle_bool 0 b)
  | NInf, Fin b => signed_inf (Qltb b 0)
  | _, _ => NaN
  end.

(* std::min(a, b) is [(b < a) ? b : a]; std::max(a, b) is [(a < b) ? b : a] *)
Definition min (x y : dbl) : dbl := if ltb y x then y else x.
Definition max (x y : dbl) : dbl := if ltb x y then y else x.

(* [unsigned int n = std::ceil(x)]: the conversion is defined only when the
   rounded value is representable *)
Definition ceil_to_unsigned (x : dbl) : res nat :=
  match x with
  | Fin a =>
      let c := Qceiling a in
      if (0 <=? c)%Z && (c <? 2 ^ 32)%Z then Ok (Z.to_nat c) else Abort
  | _ => Abort
  end.

Definition of_nat (n : nat) : Q := inject_Z (Z.of_nat n).

End Dbl.

Import Dbl.

(** ** Configurations and the two edge-cost integrators *)

Definition Config := list Q.

Module Integrator.
Local Open Scope Q_scope.

(* an exact square root on squares of rationals, to run the integrators *)
Definition Qsqrt (q : Q) : Q :=
  let r := Qred q in Z.sqrt (Qnum r) # Pos.sqrt (Qden r).

Section WithSqrt.

(* [std::sqrt], which Eigen's [norm()] ends in *)
Variable sqrt : Q -> Q.

Definition vsub (x y : Config) : Config := zip_with Qminus x y.
Definition vadd (x y : Config) : Config := zip_with Qplus x y.
Definition vscale (s : Q) (x : Config) : Config := map (Qmult s) x.
Definition vdiv (x : Config) (s : Q) : Config := map (fun c => c / s) x.

Definition squaredNorm (x : Config) : Q :=
  fold_right (fun c acc => c * c + acc) 0 x.

Definition norm (x : Config) : Q := sqrt (squaredNorm x).

(* cSpaceDistance *)
Definition cSpaceDistance (a b : Config) : Q := norm (vsub a b).

Definition std_min (a b : Q) : Q := if Qltb b a then b else a.

(** *** ORSceneInterface *)

Definition STEP_SIZE : Q := 1 # 1000.

(* ORSceneInterface::costPerConfig; the collision engine is an oracle:
   [self_collision c] is [_robot->CheckSelfCollision()] at [c] and
   [min_distance c] is [_report->minDistance] after the collision query *)
Definition costPerConfig (self_collision : Config -> bool)
    (min_distance : Config -> dbl) (c : Config) : dbl :=
  if self_collision c then INFINITY
  else let clearance := min_distance c in
       div (Fin 1) clearance.

Section ORSceneInterface.

Variable costPerConfig_ : Config -> dbl.

(* the body of the [for] loop of ORSceneInterface::integrateCosts, run for
   [k] more iterations from loop counter [t] *)
Fixpoint or_loop (avec delta : Config) (nrm : Q) (k t : nat)
    (integral_cost : dbl) : dbl :=
  match k with
  | O => integral_cost
  | S k' =>
      let q := vadd (vscale (std_min (of_nat t * STEP_SIZE / nrm) 1) delta) avec in
      let dc := costPerConfig_ q in
      if isinf dc then INFINITY
      else or_loop avec delta nrm k' (S t) (add integral_cost (mul dc (Fin STEP_SIZE)))
  end.

(* ORSceneInterface::integrateCosts *)
Definition or_integrateCosts (a b : Config) : res dbl :=
  _ <~ assert (bool_decide (length a = length b));;
  let delta := vsub b a in
  let nrm := norm delta in
  if Qeq_bool nrm 0 then Ok (Fin 0)
  else
    num_steps <~ ceil_to_unsigned (div (Fin nrm) (Fin STEP_SIZE));;
    Ok (or_loop a delta nrm num_steps 0%nat (Fin 0)).

(* ORSceneInterface::lowerBound *)
Definition or_lowerBound (a b : Config) : dbl := Fin (cSpaceDistance a b).

End ORSceneInterface.

(** *** IntegralEdgeCostComputer *)

Section IntegralEdgeCostComputer.

Variable _step_size : Q.

Fixpoint iecc_loop (cost_fn : Config -> dbl) (avec delta : Config) (nrm : Q)
    (k : nat) (progress : Q) (integral_cost : dbl) : dbl :=
  match k with
  | O => integral_cost
  | S k' =>
      let q := vadd (vscale progress delta) avec in
      let step_size := std_min _step_size (nrm - progress) in
      let progress' := progress + step_size in
      let dc := cost_fn q in
      if isinf dc then INFINITY
      else iecc_loop cost_fn avec delta nrm k' progress'
             (add integral_cost (mul dc (Fin step_size)))
  end.

(* IntegralEdgeCostComputer::integrateCosts *)
Definition integrateCosts (a b : Config) (cost_fn : Config -> dbl) : res dbl :=
  _ <~ assert (bool_decide (length a = length b));;
  let delta := vsub b a in
  let nrm := norm delta in
  if Qeq_bool nrm 0 then Ok (Fin 0)
  else
    let delta := vdiv delta nrm in
    num_steps <~ ceil_to_unsigned (div (Fin nrm) (Fin _step_size));;
    Ok (iecc_loop cost_fn a delta nrm num_steps 0 (Fin 0)).

End IntegralEdgeCostComputer.

End WithSqrt.

End Integrator.


(** ** Grasps and goals (MultiGraspMP) *)

Module Grasp.
Record t := mk {
  id : N;
  pos : list Q;              (* object pose relative to the end effector *)
  quat : list Q;
  gripper_values : list Q
}.
End Grasp.

Module Goal.
Record t := mk {
  id : N;
  config : Config;
  grasp_id : N;
  quality : dbl
}.
End Goal.

(** ** ORSceneInterface: the grasp table *)

Module ORSceneInterface.

(* ORSceneInterface::addGrasp on the [_grasps] member *)
Definition addGrasp (g : Grasp.t) (_grasps : gmap N Grasp.t) : res (gmap N Grasp.t) :=
  match _grasps !! Grasp.id g with
  | Some _ => Throw logic_error
  | None => Ok (<[Grasp.id g := g]> _grasps)
  end.

(* ORSceneInterface::removeGrasp *)
Definition removeGrasp (gid : N) (_grasps : gmap N Grasp.t) : gmap N Grasp.t :=
  match _grasps !! gid with
  | Some _ => delete gid _grasps
  | None => _grasps
  end.

End ORSceneInterface.

(** ** The roadmap *)

Module Roadmap.

(* [unsigned int] arithmetic *)
Definition uint_succ (n : N) : N := ((n + 1) mod 2 ^ 32)%N.

(* [std::map::insert]: an entry already present under the key is kept *)
Definition map_insert_new {V} (k : N) (v : V) (m : gmap N V) : gmap N V :=
  match m !! k with
  | Some _ => m
  | None => <[k := v]> m
  end.

(** Nodes and edges are shared objects: a [NodePtr] or [EdgePtr] is the
    address (a key of [node_heap], [edge_heap]) of the object, so that a
    write through one owner is seen by every other one. *)

Record Edge := mkEdge {
  base_cost : dbl;
  base_evaluated : bool;
  conditional_costs : gmap N dbl;   (* grasp id -> cost *)
  node_a : N;                       (* weak references *)
  node_b : N
}.

Record Node := mkNode {
  uid : N;
  config : Config;
  initialized : bool;
  conditional_validity : gmap N bool;
  edges : gmap N N;                 (* neighbour uid -> EdgePtr *)
  densification_gen : N
}.

(* the state space the roadmap queries *)
Record StateSpace := mkStateSpace {
  distance : Config -> Config -> dbl;
  ss_isValid : Config -> bool;
  ss_isValid_grasp : Config -> N -> bool -> bool;
  ss_cost : Config -> dbl;
  ss_conditional_cost : Config -> N -> dbl
}.

Record EdgeCostComputer := mkEdgeCostComputer {
  lowerBound : Config -> Config -> dbl;
  cost : Config -> Config -> res dbl;
  cost_grasp : Config -> Config -> N -> res dbl
}.

Record SpaceInformation := mkSpaceInformation {
  dimension : nat;
  lower : Config;
  upper : Config
}.

Record Roadmap := mkRoadmap {
  node_heap : gmap N Node;
  edge_heap : gmap N Edge;
  next_node : N;                    (* next free node address *)
  next_edge : N;                    (* next free edge address *)
  _nn : list N;                     (* nearest-neighbour index: owns the nodes *)
  _nodes : gmap N N;                (* uid -> weak reference *)
  _node_id_counter : N;
  _halton_seq_id : N;
  _densification_gen : N
}.

Definition with_node_heap (h : gmap N Node) (rm : Roadmap) : Roadmap :=
  mkRoadmap h (edge_heap rm) (next_node rm) (next_edge rm) (_nn rm) (_nodes rm)
    (_node_id_counter rm) (_halton_seq_id rm) (_densification_gen rm).

Definition with_edge_heap (h : gmap N Edge) (rm : Roadmap) : Roadmap :=
  mkRoadmap (node_heap rm) h (next_node rm) (next_edge rm) (_nn rm) (_nodes rm)
    (_node_id_counter rm) (_halton_seq_id rm) (_densification_gen rm).

Definition set_initialized (b : bool) (n : Node) : Node :=
  mkNode (uid n) (config n) b (conditional_validity n) (edges n) (densification_gen n).

Definition set_conditional_validity (m : gmap N bool) (n : Node) : Node :=
  mkNode (uid n) (config n) (initialized n) m (edges n) (densification_gen n).

Definition set_edges (m : gmap N N) (n : Node) : Node :=
  mkNode (uid n) (config n) (initialized n) (conditional_validity n) m (densification_gen n).

Definition set_densification_gen (g : N) (n : Node) : Node :=
  mkNode (uid n) (config n) (initialized n) (conditional_validity n) (edges n) g.

Definition set_base (c : dbl) (ev : bool) (e : Edge) : Edge :=
  mkEdge c ev (conditional_costs e) (node_a e) (node_b e).

Definition set_conditional_costs (m : gmap N dbl) (e : Edge) : Edge :=
  mkEdge (base_cost e) (base_evaluated e) m (node_a e) (node_b e).

(* write through a pointer *)
Definition upd_node (l : N) (f : Node -> Node) (rm : Roadmap) : Roadmap :=
  with_node_heap (alter f l (node_heap rm)) rm.

Definition upd_edge (l : N) (f : Edge -> Edge) (rm : Roadmap) : Roadmap :=
  with_edge_heap (alter f l (edge_heap rm)) rm.

(* read through a pointer; a dangling one is undefined behaviour *)
Definition get_node (rm : Roadmap) (l : N) : res Node :=
  match node_heap rm !! l with Some n => Ok n | None => Abort end.

Definition get_edge (rm : Roadmap) (l : N) : res Edge :=
  match edge_heap rm !! l with Some e => Ok e | None => Abort end.

(** A [NodeWeakPtr]. The nearest-neighbour index is the lasting owner of a
    node; [pinned] says that the caller holds a [NodePtr] of its own, which
    keeps the object alive whatever the roadmap does. *)
Record NodeWeakPtr := mkWeak { target : N; pinned : bool }.

Definition expired (rm : Roadmap) (w : NodeWeakPtr) : bool :=
  negb (pinned w) && negb (bool_decide (target w ∈ _nn rm)).

(* [weak.lock()] on the back reference of an edge *)
Definition lock (rm : Roadmap) (l : N) : option Node :=
  if bool_decide (l ∈ _nn rm) then node_heap rm !! l else None.

(* [edge->base_evaluated && std::isinf(edge->base_cost)] *)
Definition edge_invalid (rm : Roadmap) (e : N) : bool :=
  match edge_heap rm !! e with
  | Some ed => base_evaluated ed && isinf (base_cost ed)
  | None => false
  end.

(* Roadmap::Edge::getNeighbor, for the node [n] held by the caller *)
Definition getNeighbor (rm : Roadmap) (e : Edge) (n : N) : res (option N) :=
  nd <~ get_node rm n;;
  let other :=
    match lock rm (node_b e) with
    | Some b => _ <~ assert (negb (uid b =? uid nd)%N);; Ok (Some (node_b e))
    | None => Ok None
    end in
  match lock rm (node_a e) with
  | Some a => if negb (uid a =? uid nd)%N then Ok (Some (node_a e)) else other
  | None => other
  end.

(* Roadmap::Edge::getBestKnownCost *)
Definition getBestKnownCost (e : Edge) (gid : N) : dbl :=
  match conditional_costs e !! gid with
  | Some c => c
  | None => base_cost e
  end.

Section Operations.

Variable _state_space : StateSpace.
Variable _cost_computer : EdgeCostComputer.
Variable _si : SpaceInformation.
(* [_gamma_prm * pow(log(n) / n, 1.0 / _si.dimension)] as a function of
   [n = _nn.size()] *)
Variable radius : nat -> dbl.
(* the Halton sequence: the point of the given index *)
Variable halton : N -> Config.

(** Modelled from the spec: the constructor [Node(uid, config)] is in
    MultiGraspRoadmap.h, which is not among the sources.  A node is born
    with base validity unknown ([initialized = false]), without validity or
    adjacency entries, and with a generation (0) that no densified roadmap
    has, so that its adjacency is refreshed on first use. *)
Definition new_Node (id : N) (cfg : Config) : Node := mkNode id cfg false ∅ ∅ 0%N.

(* Roadmap::addNode *)
Definition addNode (cfg : Config) (rm : Roadmap) : N * Roadmap :=
  let l := next_node rm in
  let new_node := new_Node (_node_id_counter rm) cfg in
  (l, mkRoadmap (<[l := new_node]> (node_heap rm)) (edge_heap rm)
        (next_node rm + 1)%N (next_edge rm)
        (_nn rm ++ [l])
        (map_insert_new (uid new_node) l (_nodes rm))
        (uint_succ (_node_id_counter rm))
        (_halton_seq_id rm) (_densification_gen rm)).

(* Roadmap::scaleToLimits *)
Definition scaleToLimits (cfg : Config) : res Config :=
  _ <~ assert (bool_decide (length cfg = dimension _si));;
  Ok (zip_with (fun c lu => (c * (lu.2 - lu.1) + lu.1)%Q) cfg (zip (lower _si) (upper _si))).

(* the loop of Roadmap::densify *)
Fixpoint densify_loop (k : nat) (idx : N) (rm : Roadmap) : res Roadmap :=
  match k with
  | O => Ok rm
  | S k' =>
      cfg <~ scaleToLimits (halton idx);;
      _ <~ assert (bool_decide (length cfg = dimension _si));;
      densify_loop k' (idx + 1)%N (addNode cfg rm).2
  end.

(* Roadmap::densify(batch_size) *)
Definition densify (batch_size : N) (rm : Roadmap) : res Roadmap :=
  _ <~ assert (0 <? batch_size)%N;;
  rm1 <~ densify_loop (N.to_nat batch_size) (_halton_seq_id rm) rm;;
  Ok (mkRoadmap (node_heap rm1) (edge_heap rm1) (next_node rm1) (next_edge rm1)
        (_nn rm1) (_nodes rm1) (_node_id_counter rm1)
        ((_halton_seq_id rm + batch_size) mod 2 ^ 32)%N
        (uint_succ (_densification_gen rm))).

(* Roadmap::getNode *)
Definition getNode (node_id : N) (rm : Roadmap) : res (option N) :=
  match _nodes rm !! node_id with
  | None => Ok None
  | Some l =>
      _ <~ assert (bool_decide (l ∈ _nn rm));;
      Ok (Some l)
  end.

(* [_nn.nearestR(node, r, neighbors)] *)
Definition within (rm : Roadmap) (cfg : Config) (r : dbl) (l : N) : bool :=
  match node_heap rm !! l with
  | Some m => leb (distance _state_space cfg (config m)) r
  | None => false
  end.

Definition nearestR (rm : Roadmap) (cfg : Config) (r : dbl) : list N :=
  filter (fun l => within rm cfg r l = true) (_nn rm).

(* one iteration of the loop over [neighbors] in Roadmap::updateAdjacency *)
Definition connect (node : N) (rm : Roadmap) (neigh : N) : res Roadmap :=
  n <~ get_node rm node;;
  m <~ get_node rm neigh;;
  if bool_decide (edges n !! uid m = None) && negb (neigh =? node)%N then
    let bc := lowerBound _cost_computer (config n) (config m) in
    let e := next_edge rm in
    let rm1 := mkRoadmap (node_heap rm) (<[e := mkEdge bc false ∅ node neigh]> (edge_heap rm))
                 (next_node rm) (next_edge rm + 1)%N (_nn rm) (_nodes rm)
                 (_node_id_counter rm) (_halton_seq_id rm) (_densification_gen rm) in
    let rm2 := upd_node node (fun x => set_edges (map_insert_new (uid m) e (edges x)) x) rm1 in
    let rm3 := upd_node neigh (fun x => set_edges (map_insert_new (uid n) e (edges x)) x) rm2 in
    Ok rm3
  else Ok rm.

Fixpoint connect_all (node : N) (neighbors : list N) (rm : Roadmap) : res Roadmap :=
  match neighbors with
  | [] => Ok rm
  | neigh :: rest => rm' <~ connect node rm neigh;; connect_all node rest rm'
  end.

(* the clean-up loop of Roadmap::updateAdjacency: the node's own map only *)
Definition prune (node : N) (rm : Roadmap) : Roadmap :=
  upd_node node
    (fun x => set_edges (filter (fun kv => edge_invalid rm kv.2 = false) (edges x)) x) rm.

(* Roadmap::updateAdjacency *)
Definition updateAdjacency (node : N) (rm : Roadmap) : res Roadmap :=
  n <~ get_node rm node;;
  rm1 <~ (if negb (densification_gen n =? _densification_gen rm)%N then
            let r := radius (length (_nn rm)) in
            let neighbors := nearestR rm (config n) r in
            rm' <~ connect_all node neighbors rm;;
            Ok (upd_node node (set_densification_gen (_densification_gen rm')) rm')
          else Ok rm);;
  Ok (prune node rm1).

(* [edge->base_evaluated = true; edge->base_cost = infinity] for the edges in
   the given adjacency map *)
Definition invalidate_edges (es : list N) (rm : Roadmap) : Roadmap :=
  fold_left (fun r e => upd_edge e (set_base PInf true) r) es rm.

(* Roadmap::deleteNode *)
Definition deleteNode (node : N) (rm : Roadmap) : res Roadmap :=
  n <~ get_node rm node;;
  let nn' := filter (fun l => l ≠ node) (_nn rm) in
  _ <~ assert (bool_decide (is_Some (_nodes rm !! uid n)));;
  let rm1 := mkRoadmap (node_heap rm) (edge_heap rm) (next_node rm) (next_edge rm)
               nn' (delete (uid n) (_nodes rm))
               (_node_id_counter rm) (_halton_seq_id rm) (_densification_gen rm) in
  Ok (invalidate_edges (map snd (map_to_list (edges n))) rm1).

(* Roadmap::isValid(NodeWeakPtr) *)
Definition isValid (inode : NodeWeakPtr) (rm : Roadmap) : res (bool * Roadmap) :=
  if expired rm inode then Ok (false, rm)
  else
    let node := target inode in
    n <~ get_node rm node;;
    if negb (initialized n) && negb (ss_isValid _state_space (config n)) then
      rm' <~ deleteNode node rm;;
      Ok (false, rm')
    else Ok (true, upd_node node (set_initialized true) rm).

(* Roadmap::isValid(NodeWeakPtr, unsigned int) *)
Definition isValid_grasp (wnode : NodeWeakPtr) (grasp_id : N) (rm : Roadmap)
    : res (bool * Roadmap) :=
  br <~ isValid wnode rm;;
  let rm1 := br.2 in
  if br.1 then
    let node := target wnode in
    n <~ get_node rm1 node;;
    match conditional_validity n !! grasp_id with
    | None =>
        let valid := ss_isValid_grasp _state_space (config n) grasp_id true in
        Ok (valid, upd_node node
                     (fun x => set_conditional_validity
                                 (<[grasp_id := valid]> (conditional_validity x)) x) rm1)
    | Some v => Ok (v, rm1)
    end
  else Ok (false, rm1).

(* Roadmap::computeCost(EdgePtr) *)
Definition computeCost (edge : N) (rm : Roadmap) : res ((bool * dbl) * Roadmap) :=
  e <~ get_edge rm edge;;
  if base_evaluated e then Ok ((negb (isinf (base_cost e)), base_cost e), rm)
  else
    match lock rm (node_a e), lock rm (node_b e) with
    | Some a, Some b =>
        c <~ cost _cost_computer (config a) (config b);;
        Ok ((negb (isinf c), c), upd_edge edge (set_base c true) rm)
    | _, _ => Abort
    end.

(* Roadmap::computeCost(EdgePtr, unsigned int) *)
Definition computeCost_grasp (edge : N) (grasp_id : N) (rm : Roadmap)
    : res ((bool * dbl) * Roadmap) :=
  e <~ get_edge rm edge;;
  if base_evaluated e && isinf (base_cost e) then Ok ((false, base_cost e), rm)
  else
    match conditional_costs e !! grasp_id with
    | None =>
        match lock rm (node_a e), lock rm (node_b e) with
        | Some a, Some b =>
            c <~ cost_grasp _cost_computer (config a) (config b) grasp_id;;
            Ok ((negb (isinf c), c),
                upd_edge edge
                  (fun x => set_conditional_costs
                              (map_insert_new grasp_id c (conditional_costs x)) x) rm)
        | _, _ => Abort
        end
    | Some c => Ok ((negb (isinf c), c), rm)
    end.

End Operations.

(* the members before the constructor body densifies *)
Definition empty : Roadmap := mkRoadmap ∅ ∅ 0%N 0%N [] ∅ 0%N 0%N 0%N.

End Roadmap.

(** ** The goal set *)

Module MultiGraspGoalSet.
Import Roadmap.

(** The goal set shares the roadmap ([_roadmap] is a [RoadmapPtr]): its
    operations take and return the roadmap next to their own members. *)
Record t := mk {
  _goals : gmap N Goal.t;
  _goal_id_to_roadmap_id : gmap N N;
  _roadmap_id_to_goal_id : gmap N N
}.

Definition empty : t := mk ∅ ∅ ∅.

(* MultiGraspGoalSet::addGoal *)
Definition addGoal (goal : Goal.t) (gs : t) (rm : Roadmap) : res (t * Roadmap) :=
  let goals' := map_insert_new (Goal.id goal) goal (_goals gs) in
  let lr := addNode (Goal.config goal) rm in
  match lock lr.2 lr.1 with
  | None => Abort
  | Some new_node =>
      Ok (mk goals'
             (<[Goal.id goal := uid new_node]> (_goal_id_to_roadmap_id gs))
             (<[uid new_node := Goal.id goal]> (_roadmap_id_to_goal_id gs)),
          lr.2)
  end.

(* MultiGraspGoalSet::getGoal *)
Definition getGoal (gid : N) (gs : t) : res Goal.t :=
  match _goals gs !! gid with
  | None => Throw logic_error
  | Some g => Ok g
  end.

(* MultiGraspGoalSet::removeGoal *)
Definition removeGoal (gid : N) (gs : t) : res t :=
  match _goals gs !! gid with
  | None => Ok gs
  | Some _ =>
      let goals' := delete gid (_goals gs) in
      match _goal_id_to_roadmap_id gs !! gid with
      | None => Abort
      | Some rid =>
          let g2r := delete gid (_goal_id_to_roadmap_id gs) in
          match _roadmap_id_to_goal_id gs !! rid with
          | None => Abort
          | Some gid' =>
              _ <~ assert (gid' =? gid)%N;;
              Ok (mk goals' g2r (delete rid (_roadmap_id_to_goal_id gs)))
          end
      end
  end.

(* MultiGraspGoalSet::removeGoals *)
Fixpoint removeGoals (goal_ids : list N) (gs : t) : res t :=
  match goal_ids with
  | [] => Ok gs
  | gid :: rest => gs' <~ removeGoal gid gs;; removeGoals rest gs'
  end.

(* MultiGraspGoalSet::getGoals *)
Definition getGoals (gs : t) : list Goal.t := map snd (map_to_list (_goals gs)).

(* MultiGraspGoalSet::getGoalId *)
Definition getGoalId (node_id grasp_id : N) (gs : t) : res (N * bool) :=
  match _roadmap_id_to_goal_id gs !! node_id with
  | None => Ok (0%N, false)
  | Some goal_id =>
      match _goals gs !! goal_id with
      | None => Throw out_of_range
      | Some g => Ok (goal_id, (Goal.grasp_id g =? grasp_id)%N)
      end
  end.

Section WithStateSpace.

Variable _state_space : StateSpace.

(* MultiGraspGoalSet::isGoal(Roadmap::NodePtr, unsigned int); the caller's
   [NodePtr] keeps the node alive during the call *)
Definition isGoal (node : N) (grasp_id : N) (gs : t) (rm : Roadmap)
    : res (bool * Roadmap) :=
  br <~ isValid_grasp _state_space (mkWeak node true) grasp_id rm;;
  let rm1 := br.2 in
  if negb br.1 then Ok (false, rm1)
  else
    n <~ get_node rm1 node;;
    match _roadmap_id_to_goal_id gs !! uid n with
    | None => Ok (false, rm1)
    | Some goal_id =>
        match _goals gs !! goal_id with
        | None => Throw out_of_range
        | Some g => Ok ((grasp_id =? Goal.grasp_id g)%N, rm1)
        end
    end.

(* MultiGraspGoalSet::isGoal(unsigned int, unsigned int) *)
Definition isGoal_id (node_id : N) (grasp_id : N) (gs : t) (rm : Roadmap)
    : res (bool * Roadmap) :=
  ol <~ getNode node_id rm;;
  match ol with
  | None => Ok (false, rm)
  | Some node_ptr => isGoal node_ptr grasp_id gs rm
  end.

End WithStateSpace.

End MultiGraspGoalSet.

(** ** The goal heuristic *)

Module MGGoalDistance.

Record GoalDistanceFn := mkGoalDistanceFn {
  scaled_lambda : dbl;
  path_cost : Config -> Config -> dbl
}.

(** Modelled from the spec: [GoalDistanceFn::distance] and [distance_const]
    are defined in MultiGraspRoadmap.h, which is not among the sources.  The
    goal distance between a query [a] (carrying the best quality) and a
    goal [g] is [d(a, g.config) + lambda' * (q_max - g.quality)]. *)
Definition distance_const (fn : GoalDistanceFn) (g query : Goal.t) : dbl :=
  add (path_cost fn (Goal.config query) (Goal.config g))
      (mul (scaled_lambda fn) (sub (Goal.quality query) (Goal.quality g))).

(* The nearest-neighbour structures hold copies of the goals. *)
Record t := mk {
  _goal_distance : GoalDistanceFn;
  _quality_normalizer : dbl;
  _max_quality : dbl;
  _all_goals : list Goal.t;
  _goals : gmap N (list Goal.t)       (* grasp id -> goals of that grasp *)
}.

(* [gnat.add(goal)] for the per-grasp structures *)
Definition add_to_grasp (m : gmap N (list Goal.t)) (goal : Goal.t) : gmap N (list Goal.t) :=
  match m !! Goal.grasp_id goal with
  | None => <[Goal.grasp_id goal := [goal]]> m
  | Some l => <[Goal.grasp_id goal := l ++ [goal]]> m
  end.

(* MGGoalDistance::MGGoalDistance *)
Definition make (goal_set : MultiGraspGoalSet.t)
    (path_cost_ : Config -> Config -> dbl) (lambda : dbl) : t :=
  let goals := MultiGraspGoalSet.getGoals goal_set in
  let max_q := fold_left (fun m g => max m (Goal.quality g)) goals NInf in
  let min_q := fold_left (fun m g => min m (Goal.quality g)) goals PInf in
  let qn := sub max_q min_q in
  let qn := if eqb qn (Fin 0) then Fin 1 else qn in
  mk (mkGoalDistanceFn (div lambda qn) path_cost_) qn max_q
     goals (fold_left add_to_grasp goals ∅).

(* [gnat.nearest(query)]: an element at the least goal distance *)
Fixpoint nearest (fn : GoalDistanceFn) (query : Goal.t) (best : Goal.t)
    (rest : list Goal.t) : Goal.t :=
  match rest with
  | [] => best
  | g :: rest' =>
      if ltb (distance_const fn g query) (distance_const fn best query)
      then nearest fn query g rest'
      else nearest fn query best rest'
  end.

Definition dummy_goal (a : Config) (q : dbl) : Goal.t := Goal.mk 0 a 0 q.

(* MGGoalDistance::costToGo(const Config&) *)
Definition costToGo (a : Config) (d : t) : res dbl :=
  match _all_goals d with
  | [] => Throw logic_error
  | g :: rest =>
      let dummy := dummy_goal a (_max_quality d) in
      let nn := nearest (_goal_distance d) dummy g rest in
      Ok (distance_const (_goal_distance d) nn dummy)
  end.

(* MGGoalDistance::costToGo(const Config&, unsigned int) *)
Definition costToGo_grasp (a : Config) (grasp_id : N) (d : t) : res dbl :=
  match _goals d !! grasp_id with
  | None => Throw logic_error
  | Some [] => Throw logic_error
  | Some (g :: rest) =>
      let dummy := dummy_goal a (_max_quality d) in
      let nn := nearest (_goal_distance d) dummy g rest in
      Ok (distance_const (_goal_distance d) nn dummy)
  end.

(* MGGoalDistance::getGoalCost *)
Definition getGoalCost (quality : dbl) (d : t) : dbl :=
  mul (scaled_lambda (_goal_distance d)) (sub (_max_quality d) quality).

End MGGoalDistance.

(** ** Search results *)

Record SearchResult := mkSearchResult {
  solved : bool;
  path : list N;                      (* starting from the start node *)
  path_cost : dbl;
  goal_cost : dbl;
  goal_node : N
}.

(* SearchResult::cost *)
Definition SearchResult_cost (r : SearchResult) : dbl := add (path_cost r) (goal_cost r).

(* the [while] loop of extractPath on [result.path] *)
Fixpoint extractPath_loop {VD} (parent : VD -> N) (fuel : nat) (v_start : N)
    (vertex_data : gmap N VD) (v : N) (path : list N) : res (list N) :=
  if (v =? v_start)%N then Ok path
  else match fuel with
       | O => OutOfFuel
       | S fuel' =>
           match vertex_data !! v with
           | None => Throw out_of_range
           | Some d =>
               extractPath_loop parent fuel' v_start vertex_data (parent d) (path ++ [v])
           end
       end.

(* extractPath *)
Definition extractPath {VD} (parent : VD -> N) (fuel : nat) (v_start : N)
    (vertex_data : gmap N VD) (result : SearchResult) : res SearchResult :=
  path' <~ extractPath_loop parent fuel v_start vertex_data (goal_node result)
             (path result);;
  Ok (mkSearchResult (solved result) (rev (path' ++ [v_start]))
        (path_cost result) (goal_cost result) (goal_node result)).

(** ** Lifelong Planning A* *)

Module LPAStar.

(* Key for priority queue *)
Definition Key : Type := dbl * dbl.

(** Modelled from the spec: [operator<] on [Key] is declared in LPAStar.h and
    defined in a file that is not among the sources; the key ordering is
    lexicographic. *)
Definition lex_lt (a b : Key) : bool :=
  ltb a.1 b.1 || (negb (ltb b.1 a.1) && ltb a.2 b.2).

Record PQElement := mkPQElement { el_v : N; key : Key }.

(** The Fibonacci heap with handles: the live elements under their handles,
    oldest first; a handle is never reused.  Among elements of equal key the
    oldest one is on top. *)
Record PQ := mkPQ { heap : list (N * PQElement); next_handle : N }.

Record VertexData := mkVertexData {
  v : N;
  g : dbl;
  h : dbl;
  rhs : dbl;
  p : N;
  in_pq : bool;
  pq_handle : option N                (* [None]: default-constructed handle *)
}.

(* the interface LPAStarAlgorithm requires of its graph *)
Record Graph := mkGraph {
  getStartNode : N;
  checkValidity : N -> bool;
  heuristic : N -> dbl;
  getSuccessors : N -> bool -> list N;
  getPredecessors : N -> bool -> list N;
  getEdgeCost : N -> N -> bool -> dbl;
  lazy_default : bool;                (* default argument of getEdgeCost *)
  isGoal : N -> bool;
  getGoalCost : N -> dbl
}.

Record LPAStarAlgorithm := mkLPA {
  _pq : PQ;
  _vertex_data : gmap N VertexData;
  _result : SearchResult;
  _goal_key : Key;
  _lazy : bool;
  _v_start : N
}.

(* LPAStarAlgorithm::computeKey *)
Definition computeKey (g h rhs : dbl) : Key :=
  let g_p := min g rhs in
  (add g_p h, g_p).

Definition with_pq (q : PQ) (st : LPAStarAlgorithm) : LPAStarAlgorithm :=
  mkLPA q (_vertex_data st) (_result st) (_goal_key st) (_lazy st) (_v_start st).

Definition with_vertex_data (m : gmap N VertexData) (st : LPAStarAlgorithm)
    : LPAStarAlgorithm :=
  mkLPA (_pq st) m (_result st) (_goal_key st) (_lazy st) (_v_start st).

Definition with_goal (k : Key) (r : SearchResult) (st : LPAStarAlgorithm)
    : LPAStarAlgorithm :=
  mkLPA (_pq st) (_vertex_data st) r k (_lazy st) (_v_start st).

Definition set_g (x : dbl) (d : VertexData) : VertexData :=
  mkVertexData (v d) x (h d) (rhs d) (p d) (in_pq d) (pq_handle d).

Definition set_rhs_p (x : dbl) (parent : N) (d : VertexData) : VertexData :=
  mkVertexData (v d) (g d) (h d) x parent (in_pq d) (pq_handle d).

Definition set_in_pq (b : bool) (d : VertexData) : VertexData :=
  mkVertexData (v d) (g d) (h d) (rhs d) (p d) b (pq_handle d).

Definition set_pq_handle (hd : option N) (d : VertexData) : VertexData :=
  mkVertexData (v d) (g d) (h d) (rhs d) (p d) (in_pq d) hd.

(* write through a [VertexData&] *)
Definition upd_vertex (x : N) (f : VertexData -> VertexData) (st : LPAStarAlgorithm)
    : LPAStarAlgorithm :=
  with_vertex_data (alter f x (_vertex_data st)) st.

(* read through a [VertexData&] *)
Definition vertex (st : LPAStarAlgorithm) (x : N) : res VertexData :=
  match _vertex_data st !! x with Some d => Ok d | None => Abort end.

Section Algorithm.

(* [operator<] on keys *)
Variable key_lt : Key -> Key -> bool.
Variable _graph : Graph.

(** *** The priority queue *)

Definition pq_empty (q : PQ) : bool :=
  match heap q with [] => true | _ => false end.

Fixpoint top_of (best : N * PQElement) (rest : list (N * PQElement)) : N * PQElement :=
  match rest with
  | [] => best
  | x :: rest' =>
      if key_lt (key x.2) (key best.2) then top_of x rest' else top_of best rest'
  end.

(* [_pq.top()], with the handle of the element; undefined on an empty heap *)
Definition pq_top (q : PQ) : res (N * PQElement) :=
  match heap q with
  | [] => Abort
  | x :: rest => Ok (top_of x rest)
  end.

(* [_pq.pop()] *)
Definition pq_pop (q : PQ) : res PQ :=
  t <~ pq_top q;;
  Ok (mkPQ (filter (fun x => x.1 ≠ t.1) (heap q)) (next_handle q)).

(* [_pq.push(el)] *)
Definition pq_push (el : PQElement) (q : PQ) : N * PQ :=
  (next_handle q, mkPQ (heap q ++ [(next_handle q, el)]) (next_handle q + 1)%N).

Definition pq_find (hd : N) (q : PQ) : option PQElement :=
  snd <$> List.find (fun x => (x.1 =? hd)%N) (heap q).

(* reading the key through a handle; a handle of a popped element dangles *)
Definition pq_key (hd : option N) (q : PQ) : res Key :=
  match hd with
  | None => Abort
  | Some hd => match pq_find hd q with Some el => Ok (key el) | None => Abort end
  end.

(* writing the key through a handle, followed by [_pq.increase(handle)] or
   [_pq.decrease(handle)], which restore the heap order *)
Definition pq_update (hd : option N) (k : Key) (q : PQ) : res PQ :=
  _ <~ pq_key hd q;;
  Ok (mkPQ (map (fun x => if bool_decide (Some x.1 = hd)
                          then (x.1, mkPQElement (el_v x.2) k) else x) (heap q))
           (next_handle q)).

(** *** Vertex data *)

(* LPAStarAlgorithm::getVertexData: materialise on first reference *)
Definition getVertexData (x : N) (st : LPAStarAlgorithm) : LPAStarAlgorithm :=
  match _vertex_data st !! x with
  | Some _ => st
  | None =>
      with_vertex_data
        (<[x := mkVertexData x PInf (heuristic _graph x) PInf x false None]>
           (_vertex_data st)) st
  end.

(** *** updateVertexKey *)

(* 1. update pq membership *)
Definition updateMembership (x : N) (st : LPAStarAlgorithm) : res LPAStarAlgorithm :=
  d <~ vertex st x;;
  if neb (g d) (rhs d) && in_pq d then
    _ <~ pq_key (pq_handle d) (_pq st);;
    let new_key := computeKey (g d) (h d) (rhs d) in
    q <~ pq_update (pq_handle d) new_key (_pq st);;
    Ok (with_pq q st)
  else if neb (g d) (rhs d) && negb (in_pq d) then
    let hq := pq_push (mkPQElement (v d) (computeKey (g d) (h d) (rhs d))) (_pq st) in
    Ok (upd_vertex x (fun y => set_in_pq true (set_pq_handle (Some hq.1) y))
          (with_pq hq.2 st))
  else if eqb (g d) (rhs d) && in_pq d then
    q <~ pq_update (pq_handle d) (Fin 0, Fin 0) (_pq st);;
    q' <~ pq_pop q;;
    Ok (upd_vertex x (set_in_pq false) (with_pq q' st))
  else Ok st.


(* 2. if v is a goal, update goal key if better *)
Definition updateGoal (x : N) (st : LPAStarAlgorithm) : res LPAStarAlgorithm :=
  d <~ vertex st x;;
  if isGoal _graph (v d) then
    let goal_cost := getGoalCost _graph (v d) in
    let v_goal_key := computeKey (g d) goal_cost (rhs d) in
    if key_lt v_goal_key (_goal_key st) then
      Ok (with_goal v_goal_key
            (mkSearchResult (eqb (g d) (rhs d)) (path (_result st)) (g d) goal_cost (v d))
            st)
    else Ok st
  else Ok st.

(* LPAStarAlgorithm::updateVertexKey *)
Definition updateVertexKey (x : N) (st : LPAStarAlgorithm) : res LPAStarAlgorithm :=
  st1 <~ updateMembership x st;;
  updateGoal x st1.

(** *** Cost changes *)

(* the loop over the predecessors [s] of [v] in handleCostIncrease *)
Fixpoint reparent (x : N) (preds : list N) (st : LPAStarAlgorithm)
    : res LPAStarAlgorithm :=
  match preds with
  | [] => Ok st
  | s :: rest =>
      let st1 := getVertexData s st in
      s_data <~ vertex st1 s;;
      v_data <~ vertex st1 x;;
      let rhs' := add (g s_data) (getEdgeCost _graph s (v v_data) (_lazy st1)) in
      if ltb rhs' (rhs v_data)
      then reparent x rest (upd_vertex x (set_rhs_p rhs' s) st1)
      else reparent x rest st1
  end.

(* LPAStarAlgorithm::handleCostIncrease(u_data, v_data) *)
Definition handleCostIncrease (u x : N) (st : LPAStarAlgorithm) : res LPAStarAlgorithm :=
  u_data <~ vertex st u;;
  v_data <~ vertex st x;;
  if (p v_data =? v u_data)%N then
    st1 <~ reparent x (getPredecessors _graph (v v_data) (_lazy st)) st;;
    updateVertexKey x st1
  else Ok st.

(* LPAStarAlgorithm::handleCostDecrease(u_data, v_data) *)
Definition handleCostDecrease (u x : N) (st : LPAStarAlgorithm) : res LPAStarAlgorithm :=
  u_data <~ vertex st u;;
  v_data <~ vertex st x;;
  let edge_cost := getEdgeCost _graph (v u_data) (v v_data) (lazy_default _graph) in
  if gtb (rhs v_data) (add (g u_data) edge_cost) then
    updateVertexKey x (upd_vertex x (set_rhs_p (add (g u_data) edge_cost) (v u_data)) st)
  else Ok st.

(** *** Construction *)

(* LPAStarAlgorithm::LPAStarAlgorithm.  [uninit] is what the members of
   [_result] without an initialiser hold before the body runs; [path] is
   default-constructed, hence empty, and so is the queue.  [_goal_key] is a
   value-initialised pair. *)
Definition make (lazy : bool) (uninit : bool * dbl * dbl * N) : LPAStarAlgorithm :=
  let v_start := getStartNode _graph in
  let result0 := mkSearchResult uninit.1.1.1 [] uninit.1.1.2 uninit.1.2 uninit.2 in
  if checkValidity _graph v_start then
    let start_node := mkVertexData v_start (Fin 0) (heuristic _graph v_start) (Fin 0)
                        v_start false None in
    let hq := pq_push (mkPQElement v_start
                         (computeKey (g start_node) (h start_node) (rhs start_node)))
                (mkPQ [] 0%N) in
    mkLPA hq.2
      (<[v_start := set_pq_handle (Some hq.1) start_node]> ∅)
      (mkSearchResult false [] PInf PInf v_start)
      (computeKey PInf PInf PInf)
      lazy v_start
  else
    mkLPA (mkPQ [] 0%N) ∅ result0 (Fin 0, Fin 0) lazy v_start.

(** *** updateEdges *)



(** *** computeShortestPath *)

(* the successor loop of the overconsistent branch *)
Fixpoint relax_successors (u : N) (succs : list N) (st : LPAStarAlgorithm)
    : res LPAStarAlgorithm :=
  match succs with
  | [] => Ok st
  | s :: rest =>
      st1 <~ handleCostDecrease u s (getVertexData s st);;
      relax_successors u rest st1
  end.

(** The successor loop of the underconsistent branch,
    [for (; iter != end_iter; ++end_iter)].  The iterator pair is a pair of
    positions in the successor sequence; the loop advances [end_iter]. *)
Fixpoint raise_successors (fuel : nat) (u : N) (succs : list N) (iter end_iter : nat)
    (st : LPAStarAlgorithm) : res LPAStarAlgorithm :=
  if (iter =? end_iter)%nat then Ok st
  else match fuel with
       | O => OutOfFuel
       | S fuel' =>
           match succs !! iter with
           | None => Abort
           | Some s =>
               st1 <~ handleCostIncrease u s (getVertexData s st);;
               raise_successors fuel' u succs iter (S end_iter) st1
           end
       end.

(* the test of the main [while]: [_pq.top()] is read before [_pq.empty()] *)
Definition loop_test (st : LPAStarAlgorithm) : res bool :=
  t <~ pq_top (_pq st);;
  Ok ((key_lt (key t.2) (_goal_key st) || negb (solved (_result st)))
      && negb (pq_empty (_pq st))).

(* one pass through the body of the main [while] *)
Definition loop_body (fuel : nat) (st : LPAStarAlgorithm) : res LPAStarAlgorithm :=
  t <~ pq_top (_pq st);;
  _ <~ assert (negb (key_lt (_goal_key st) (key t.2)));;
  let current_el := t.2 in
  q <~ pq_pop (_pq st);;
  let st1 := getVertexData (el_v current_el) (with_pq q st) in
  let u := el_v current_el in
  u_data <~ vertex st1 u;;
  if gtb (g u_data) (rhs u_data) then
    let st2 := upd_vertex u (set_g (rhs u_data)) st1 in
    st3 <~ updateVertexKey u st2;;
    relax_successors u (getSuccessors _graph (v u_data) (_lazy st3)) st3
  else
    let st2 := upd_vertex u (set_g PInf) st1 in
    let succs := getSuccessors _graph (v u_data) (_lazy st2) in
    st3 <~ raise_successors fuel u succs 0 (length succs) st2;;
    updateVertexKey u st3.

Fixpoint main_loop (fuel : nat) (st : LPAStarAlgorithm) : res LPAStarAlgorithm :=
  match fuel with
  | O => OutOfFuel
  | S fuel' =>
      continue <~ loop_test st;;
      if continue then st' <~ loop_body fuel' st;; main_loop fuel' st'
      else Ok st
  end.

(* LPAStarAlgorithm::computeShortestPath: the result and the new state *)
Definition computeShortestPath (fuel : nat) (st : LPAStarAlgorithm)
    : res (SearchResult * LPAStarAlgorithm) :=
  st' <~ main_loop fuel st;;
  let result := _result st' in
  if solved result then
    r <~ extractPath p fuel (_v_start st') (_vertex_data st') result;;
    Ok (r, st')
  else Ok (result, st').

(* lpaStarSearch *)
Definition lpaStarSearch (fuel : nat) (uninit : bool * dbl * dbl * N) : res SearchResult :=
  rs <~ computeShortestPath fuel (make false uninit);;
  Ok rs.1.

End Algorithm.

End LPAStar.

(** ** IntegralEdgeCostComputer as the roadmap's cost computer *)

Module IntegralEdgeCostComputer.
Import Roadmap.

Section WithSqrt.
Variable sqrt : Q -> Q.
Variable _state_space : StateSpace.
Variable _step_size : Q.

(* IntegralEdgeCostComputer::lowerBound *)
Definition lowerBound (a b : Config) : dbl := distance _state_space a b.

(* IntegralEdgeCostComputer::cost(a, b) *)
Definition cost (a b : Config) : res dbl :=
  Integrator.integrateCosts sqrt _step_size a b (ss_cost _state_space).

(* IntegralEdgeCostComputer::cost(a, b, grasp_id) *)
Definition cost_grasp (a b : Config) (grasp_id : N) : res dbl :=
  Integrator.integrateCosts sqrt _step_size a b
    (fun c => ss_conditional_cost _state_space c grasp_id).

Definition make : EdgeCostComputer := mkEdgeCostComputer lowerBound cost cost_grasp.

End WithSqrt.
End IntegralEdgeCostComputer.

(** ** Solutions (MGGraphSearchMP) *)

Module Solution.
(** Modelled from the spec: [MultiGraspMP::Solution] is declared in
    MultiGraspMP.h, which is not among the sources.  A solution is
    [{ goal_id, path: [Config], cost }]; these are the members
    [extractSolution] writes. *)
Record t := mk {
  goal_id : N;
  path : list Config;                 (* the waypoints *)
  cost : dbl
}.
End Solution.

Module MGGraphSearchMP.

Section ExtractSolution.

Variable _roadmap : Roadmap.Roadmap.
Variable _goal_set : MultiGraspGoalSet.t.

(* [auto node = _roadmap->getNode(rid); assert(node);
   wp_path->push_back(node->config)] *)
Definition push_config (rid : N) (wp_path : list Config) : res (list Config) :=
  node <~ Roadmap.getNode rid _roadmap;;
  match node with
  | None => Abort
  | Some l => n <~ Roadmap.get_node _roadmap l;; Ok (wp_path ++ [Roadmap.config n])
  end.

(* the loop over [sr.path] of the generic extractSolution *)
Fixpoint waypoints (getGraspRoadmapId : N -> N * N) (vids : list N)
    (wp_path : list Config) : res (list Config) :=
  match vids with
  | [] => Ok wp_path
  | vid :: rest =>
      wp_path' <~ push_config (getGraspRoadmapId vid).1 wp_path;;
      waypoints getGraspRoadmapId rest wp_path'
  end.

(* MGGraphSearchMP::extractSolution; [sr.path.back()] is undefined on an
   empty path *)
Definition extractSolution (getGraspRoadmapId : N -> N * N) (sr : SearchResult)
    : res Solution.t :=
  wp_path <~ waypoints getGraspRoadmapId (path sr) [];;
  match list.last (path sr) with
  | None => Abort
  | Some vid =>
      let rid_gid := getGraspRoadmapId vid in
      goal <~ MultiGraspGoalSet.getGoalId rid_gid.1 rid_gid.2 _goal_set;;
      _ <~ assert goal.2;;
      Ok (Solution.mk goal.1 wp_path (SearchResult_cost sr))
  end.

(* the loop of the overload for the folded graph, over the path in reverse
   order; the state is [(last_rid, gid)], unset at first, and the waypoints *)
Fixpoint waypoints_folded (getGraspRoadmapId : N -> (N * N) * bool) (vids : list N)
    (st : option (N * N) * list Config) : res (option (N * N) * list Config) :=
  match vids with
  | [] => Ok st
  | vid :: rest =>
      let r := getGraspRoadmapId vid in
      if r.2 then
        wp_path' <~ push_config r.1.1 st.2;;
        waypoints_folded getGraspRoadmapId rest (Some r.1, wp_path')
      else waypoints_folded getGraspRoadmapId rest st
  end.

(* MGGraphSearchMP::extractSolution for FoldedMultiGraspRoadmapGraph;
   [last_rid] and [gid] are read uninitialised when no vertex of the path
   has a valid grasp *)
Definition extractSolution_folded (getGraspRoadmapId : N -> (N * N) * bool)
    (sr : SearchResult) : res Solution.t :=
  r <~ waypoints_folded getGraspRoadmapId (rev (path sr)) (None, []);;
  match r.1 with
  | None => Abort
  | Some rid_gid =>
      goal <~ MultiGraspGoalSet.getGoalId rid_gid.1 rid_gid.2 _goal_set;;
      _ <~ assert goal.2;;
      Ok (Solution.mk goal.1 r.2 (SearchResult_cost sr))
  end.

End ExtractSolution.

End MGGraphSearchMP.

(** ** Predicates used in the statements *)

(* nothing lives at or above the next free edge address *)
Definition edges_fresh (rm : Roadmap.Roadmap) : Prop :=
  forall e, (Roadmap.next_edge rm <= e)%N -> Roadmap.edge_heap rm !! e = None.

(* the goal set's three maps agree and only name roadmap ids handed out *)
Definition goal_set_consistent (gs : MultiGraspGoalSet.t) (rm : Roadmap.Roadmap) : Prop :=
  (forall gid, MultiGraspGoalSet._goals gs !! gid = None ->
               MultiGraspGoalSet._goal_id_to_roadmap_id gs !! gid = None) /\
  (forall rid, is_Some (MultiGraspGoalSet._roadmap_id_to_goal_id gs !! rid) ->
               (rid < Roadmap._node_id_counter rm)%N).

(* the states a goal set and its roadmap go through, as long as the node
   id counter does not wrap around: goals are added and removed, and the
   roadmap is changed by operations that never lower the counter *)
Inductive reachable : MultiGraspGoalSet.t -> Roadmap.Roadmap -> Prop :=
| reach_new (rm : Roadmap.Roadmap) :
    reachable MultiGraspGoalSet.empty rm
| reach_addGoal (goal : Goal.t) (gs gs' : MultiGraspGoalSet.t) (rm rm' : Roadmap.Roadmap) :
    reachable gs rm ->
    (Roadmap._node_id_counter rm + 1 < 2 ^ 32)%N ->
    MultiGraspGoalSet.addGoal goal gs rm = Ok (gs', rm') ->
    reachable gs' rm'
| reach_removeGoals (goal_ids : list N) (gs gs' : MultiGraspGoalSet.t)
    (rm : Roadmap.Roadmap) :
    reachable gs rm ->
    MultiGraspGoalSet.removeGoals goal_ids gs = Ok gs' ->
    reachable gs' rm
| reach_roadmap (gs : MultiGraspGoalSet.t) (rm rm' : Roadmap.Roadmap) :
    reachable gs rm ->
    (Roadmap._node_id_counter rm <= Roadmap._node_id_counter rm')%N ->
    reachable gs rm'.

(* [rm'] has the nodes of [rm] with adjacency maps at least as large, and
   the edges of [rm] as they were *)
Definition extends (rm rm' : Roadmap.Roadmap) : Prop :=
  (forall l x, Roadmap.node_heap rm !! l = Some x ->
     exists x', Roadmap.node_heap rm' !! l = Some x' /\
                Roadmap.edges x ⊆ Roadmap.edges x') /\
  (forall e ed, Roadmap.edge_heap rm !! e = Some ed ->
                Roadmap.edge_heap rm' !! e = Some ed) /\
  edges_fresh rm'.

(* the vertex [u] is being expanded in the underconsistent branch: its [g]
   is infinite, its [rhs] is not, and if it is marked as queued its handle
   is live *)
Definition expanding (u : N) (st : LPAStar.LPAStarAlgorithm) : Prop :=
  exists ud,
    LPAStar._vertex_data st !! u = Some ud /\
    LPAStar.v ud = u /\
    LPAStar.g ud = PInf /\
    neb PInf (LPAStar.rhs ud) = true /\
    (LPAStar.in_pq ud = true ->
     exists k, LPAStar.pq_key (LPAStar.pq_handle ud) (LPAStar._pq st) = Ok k).

(* every vertex of [l] has the vertex before it as parent, the first one
   has [x] *)
Fixpoint parent_chain {VD} (parent : VD -> N) (vertex_data : gmap N VD) (x : N)
    (l : list N) : Prop :=
  match l with
  | [] => True
  | y :: l' =>
      (exists d, vertex_data !! y = Some d /\ parent d = x) /\
      parent_chain parent vertex_data y l'
  end.

(* the search values of a vertex, as opposed to its queue bookkeeping *)
Definition same_values (d d' : LPAStar.VertexData) : Prop :=
  LPAStar.v d' = LPAStar.v d /\ LPAStar.g d' = LPAStar.g d /\
  LPAStar.h d' = LPAStar.h d /\ LPAStar.rhs d' = LPAStar.rhs d /\
  LPAStar.p d' = LPAStar.p d.


(** ** Concrete scenes *)

Module Scene.
Import Roadmap.

(* a line: every configuration valid, clearance [clearance] everywhere *)
Definition line (clearance : dbl) : StateSpace :=
  mkStateSpace (fun a b => Fin (Integrator.cSpaceDistance Integrator.Qsqrt a b))
    (fun _ => true) (fun _ _ _ => true)
    (Integrator.costPerConfig (fun _ => false) (fun _ => clearance))
    (fun c _ => Integrator.costPerConfig (fun _ => false) (fun _ => clearance) c).

(* the same line in collision everywhere *)
Definition blocked : StateSpace :=
  mkStateSpace (fun a b => Fin (Integrator.cSpaceDistance Integrator.Qsqrt a b))
    (fun _ => false) (fun _ _ _ => false) (fun _ => PInf) (fun _ _ => PInf).

Definition computer (ss : StateSpace) : EdgeCostComputer :=
  IntegralEdgeCostComputer.make Integrator.Qsqrt ss (1 # 2).

(* the unit interval, and sample points 0, 1, ... standing in for the
   Halton points *)
Definition interval : SpaceInformation := mkSpaceInformation 1 [0%Q] [1%Q].
Definition samples (i : N) : Config := [inject_Z (Z.of_N i)].

(* two nodes, at 0 and at 1: the roadmap after its first densification *)
Definition two_nodes : Roadmap :=
  match densify interval samples 2 Roadmap.empty with
  | Ok rm => rm
  | _ => Roadmap.empty
  end.

(* the same with the adjacency of node 0 refreshed: one edge, 0 -- 1 *)
Definition connected (ss : StateSpace) : res Roadmap :=
  updateAdjacency ss (computer ss) (fun _ => Fin 2%Q) 0%N two_nodes.

End Scene.

Module Samples.

Definition goal_a : Goal.t := Goal.mk 7 [0%Q] 1 (Fin 0).

Definition goal_b : Goal.t := Goal.mk 7 [1%Q] 2 (Fin 1).

Definition goal_c : Goal.t := Goal.mk 8 [1%Q] 2 (Fin 1).

Definition grasp_a : Grasp.t := Grasp.mk 3 [] [] [].

Definition grasp_b : Grasp.t := Grasp.mk 3 [1%Q] [] [].

(* add [goal_a], then a second goal under the same id *)
Definition add_twice : res (MultiGraspGoalSet.t * Roadmap.Roadmap) :=
  s <~ MultiGraspGoalSet.addGoal goal_a MultiGraspGoalSet.empty Roadmap.empty;;
  MultiGraspGoalSet.addGoal goal_b s.1 s.2.

(* ... then remove the goal 7 and ask whether the first node is a goal *)
Definition stale_goal_test : res (bool * Roadmap.Roadmap) :=
  s <~ add_twice;;
  gs <~ MultiGraspGoalSet.removeGoal 7 s.1;;
  MultiGraspGoalSet.isGoal (Scene.line (Fin 1)) 0 1 gs s.2.

(* the two-node roadmap with its edge, on the line in collision *)
Definition blocked_rm : Roadmap.Roadmap :=
  match Scene.connected Scene.blocked with Ok rm => rm | _ => Roadmap.empty end.

Definition blocked_node0 : Roadmap.Node :=
  Roadmap.mkNode 0 [0%Q] false ∅ {[ 1%N := 0%N ]} 1.

(* the same roadmap after the cost of its edge was computed: the edge is
   evaluated with infinite base cost, both endpoints are in the roadmap *)
Definition dead_rm : Roadmap.Roadmap :=
  match Roadmap.computeCost (Scene.computer Scene.blocked) 0 blocked_rm with
  | Ok r => r.2
  | _ => Roadmap.empty
  end.

(* the two-node roadmap with its edge, on the free line of clearance 1 *)
Definition free_rm : Roadmap.Roadmap :=
  match Scene.connected (Scene.line (Fin 1)) with Ok rm => rm | _ => Roadmap.empty end.

Definition free_edge : Roadmap.Edge := Roadmap.mkEdge (Fin 1) false ∅ 0 1.

Definition free_node0 : Roadmap.Node := Roadmap.mkNode 0 [0%Q] false ∅ {[ 1%N := 0%N ]} 1.

Definition free_node1 : Roadmap.Node := Roadmap.mkNode 1 [1%Q] false ∅ {[ 0%N := 0%N ]} 0.

(* the cost computers of the lines of clearance 1 and 2 *)
Definition free_cc : Roadmap.EdgeCostComputer := Scene.computer (Scene.line (Fin 1)).

Definition wide_cc : Roadmap.EdgeCostComputer := Scene.computer (Scene.line (Fin 2)).

(* the integrated cost of the segment from 0 to 1 at clearance 1 *)
Definition free_cost : dbl :=
  match Roadmap.cost free_cc [0%Q] [1%Q] with
  | Ok c => c
  | _ => NaN
  end.

(* a search graph of two vertices: start 0, goal 1, one edge 0 -> 1 of cost 5,
   zero heuristic, terminal cost 1 at the goal *)
Definition chain : LPAStar.Graph :=
  LPAStar.mkGraph 0%N (fun _ => true) (fun _ => Fin 0)
    (fun x _ => if (x =? 0)%N then [1%N] else [])
    (fun x _ => if (x =? 1)%N then [0%N] else [])
    (fun _ _ _ => Fin 5) true
    (fun x => (x =? 1)%N) (fun _ => Fin 1).

(* the same with an invalid start *)
Definition chain_invalid_start : LPAStar.Graph :=
  LPAStar.mkGraph 0%N (fun _ => false) (fun _ => Fin 0)
    (fun x _ => if (x =? 0)%N then [1%N] else [])
    (fun x _ => if (x =? 1)%N then [0%N] else [])
    (fun _ _ _ => Fin 5) true
    (fun x => (x =? 1)%N) (fun _ => Fin 1).




(* some content of the members the constructor may leave unset *)
Definition leftover : bool * dbl * dbl * N := (true, Fin 3, NaN, 9%N).

(* the free two-node roadmap after node 0 was checked under grasp 3 *)
Definition grasp_checked : Roadmap.Roadmap :=
  match Roadmap.isValid_grasp (Scene.line (Fin 1)) (Roadmap.mkWeak 0 false) 3
          free_rm with
  | Ok r => r.2
  | _ => Roadmap.empty
  end.

(* the free two-node roadmap after the cost of its edge was computed, and
   after its cost under grasp 4 was computed *)
Definition costed_rm : Roadmap.Roadmap :=
  match Roadmap.computeCost free_cc 0 free_rm with
  | Ok r => r.2
  | _ => Roadmap.empty
  end.

Definition grasp_costed_rm : Roadmap.Roadmap :=
  match Roadmap.computeCost_grasp free_cc 0 4 free_rm with
  | Ok r => r.2
  | _ => Roadmap.empty
  end.

(* a cost computer that fails every call *)
Definition no_cc : Roadmap.EdgeCostComputer :=
  Roadmap.mkEdgeCostComputer (fun _ _ => NaN) (fun _ _ => Abort) (fun _ _ _ => Abort).

Definition grasp_costed_edge : Roadmap.Edge :=
  Roadmap.mkEdge (Fin 1) false {[ 4%N := free_cost ]} 0 1.

(* the dead two-node roadmap after the adjacency of node 0 was refreshed:
   node 0 has dropped the dead edge, node 1 still holds it *)
Definition pruned_rm : Roadmap.Roadmap :=
  match Roadmap.updateAdjacency Scene.blocked (Scene.computer Scene.blocked)
          (fun _ => Fin 2%Q) 0 dead_rm with
  | Ok rm => rm
  | _ => Roadmap.empty
  end.

Definition pruned_node0 : Roadmap.Node := Roadmap.mkNode 0 [0%Q] false ∅ ∅ 1.

Definition pruned_node1 : Roadmap.Node := Roadmap.mkNode 1 [1%Q] false ∅ {[ 0%N := 0%N ]} 0.

(* vertex data in which 2 has parent 1 and 1 has parent 0, and a result
   naming 2 as goal *)
Definition parents : gmap N LPAStar.VertexData :=
  {[ 1%N := LPAStar.mkVertexData 1 (Fin 5) (Fin 0) (Fin 5) 0 false None;
     2%N := LPAStar.mkVertexData 2 (Fin 10) (Fin 0) (Fin 10) 1 false None ]}.

Definition found : SearchResult := mkSearchResult true [] (Fin 10) (Fin 1) 2.

(* the search state on [chain] once vertex 1 is known, and after the cost
   of the edge from the start to it was found to have decreased *)
Definition known : LPAStar.LPAStarAlgorithm :=
  LPAStar.getVertexData chain 1 (LPAStar.make chain true (false, PInf, PInf, 0%N)).

Definition decreased : LPAStar.LPAStarAlgorithm :=
  match LPAStar.handleCostDecrease LPAStar.lex_lt chain 0 1 known with
  | Ok st => st
  | _ => known
  end.

(* ... and after a cost increase of that edge was handled *)
Definition increased : LPAStar.LPAStarAlgorithm :=
  match LPAStar.handleCostIncrease LPAStar.lex_lt chain 0 1 decreased with
  | Ok st => st
  | _ => decreased
  end.

(* the vertex data [parents] without the data of vertex 1 *)
Definition orphans : gmap N LPAStar.VertexData :=
  {[ 2%N := LPAStar.mkVertexData 2 (Fin 10) (Fin 0) (Fin 10) 1 false None ]}.

(* a goal set with the goal [goal_a] and its roadmap; the same after
   [goal_c] was added and [goal_a] removed *)
Definition goals_before : MultiGraspGoalSet.t :=
  MultiGraspGoalSet.mk {[ 7%N := goal_a ]} {[ 7%N := 0%N ]} {[ 0%N := 7%N ]}.

Definition roadmap_before : Roadmap.Roadmap := (Roadmap.addNode [0%Q] Roadmap.empty).2.

Definition goals_between : MultiGraspGoalSet.t :=
  match MultiGraspGoalSet.addGoal goal_c goals_before roadmap_before with
  | Ok s => s.1
  | _ => goals_before
  end.

Definition goals_after : MultiGraspGoalSet.t :=
  match MultiGraspGoalSet.removeGoal 7 goals_between with
  | Ok gs => gs
  | _ => goals_between
  end.


(* the Euclidean distance as path cost of the goal heuristic *)
Definition euclid (a b : Config) : dbl :=
  Fin (Integrator.cSpaceDistance Integrator.Qsqrt a b).


End Samples.

(** * Properties *)

(** ** Duplicate identifiers *)

Lemma addGrasp_duplicate_throws (g : Grasp.t) (grasps : gmap N Grasp.t) :
  is_Some (grasps !! Grasp.id g) ->
  ORSceneInterface.addGrasp g grasps = Throw logic_error.
Proof.
  intros [g' Hg]. unfold ORSceneInterface.addGrasp. now rewrite Hg.
Qed.

Lemma addNode_lock (cfg : Config) (rm : Roadmap.Roadmap) :
  Roadmap.lock (Roadmap.addNode cfg rm).2 (Roadmap.addNode cfg rm).1
  = Some (Roadmap.new_Node (Roadmap._node_id_counter rm) cfg).
Proof.
  unfold Roadmap.lock, Roadmap.addNode; simpl.
  rewrite bool_decide_eq_true_2.
  - apply lookup_insert_eq.
  - apply elem_of_app. right. apply list_elem_of_singleton. reflexivity.
Qed.

Lemma addGoal_returns (goal : Goal.t) (gs : MultiGraspGoalSet.t) (rm : Roadmap.Roadmap) :
  MultiGraspGoalSet.addGoal goal gs rm
  = Ok (MultiGraspGoalSet.mk
          (Roadmap.map_insert_new (Goal.id goal) goal (MultiGraspGoalSet._goals gs))
          (<[Goal.id goal := Roadmap._node_id_counter rm]>
             (MultiGraspGoalSet._goal_id_to_roadmap_id gs))
          (<[Roadmap._node_id_counter rm := Goal.id goal]>
             (MultiGraspGoalSet._roadmap_id_to_goal_id gs)),
        (Roadmap.addNode (Goal.config goal) rm).2).
Proof.
  unfold MultiGraspGoalSet.addGoal. rewrite addNode_lock. reflexivity.
Qed.

Lemma addGoal_duplicate_keeps_first (goal : Goal.t) (gs : MultiGraspGoalSet.t)
    (rm : Roadmap.Roadmap) (old : Goal.t) :
  MultiGraspGoalSet._goals gs !! Goal.id goal = Some old ->
  exists gs' rm',
    MultiGraspGoalSet.addGoal goal gs rm = Ok (gs', rm') /\
    MultiGraspGoalSet._goals gs' = MultiGraspGoalSet._goals gs.
Proof.
  intros Hold. rewrite addGoal_returns. eexists _, _. split; [reflexivity|].
  simpl. unfold Roadmap.map_insert_new. now rewrite Hold.
Qed.

(** C7. [ORSceneInterface::addGrasp] rejects a grasp whose id is taken with a
    logic error, but [MultiGraspGoalSet::addGoal] does not: adding a second
    goal under the id 7 returns normally, keeps the first goal's record, and
    re-points the id to a new roadmap node while the old node still maps to
    the id. *)
Theorem duplicate_goal_id_is_accepted :
  ORSceneInterface.addGrasp Samples.grasp_b {[ 3%N := Samples.grasp_a ]}
    = Throw logic_error /\
  match Samples.add_twice with
  | Ok (gs, rm) =>
      MultiGraspGoalSet._goals gs !! 7%N = Some Samples.goal_a /\
      MultiGraspGoalSet._goal_id_to_roadmap_id gs !! 7%N = Some 1%N /\
      MultiGraspGoalSet._roadmap_id_to_goal_id gs !! 0%N = Some 7%N /\
      MultiGraspGoalSet._roadmap_id_to_goal_id gs !! 1%N = Some 7%N /\
      Roadmap._nn rm = [0%N; 1%N]
  | _ => False
  end.
Proof.
  split; [reflexivity|].
  vm_compute. repeat split; reflexivity.
Qed.

(* the maps are left inconsistent: once the goal 7 is removed, the first
   node still maps to it, and the goal test on that node fails in
   [_goals.at] *)
Lemma duplicate_goal_id_breaks_isGoal : Samples.stale_goal_test = Throw out_of_range.
Proof. vm_compute. reflexivity. Qed.

(** ** The goal set: adding and removing *)

Lemma goal_set_consistent_empty (rm : Roadmap.Roadmap) :
  goal_set_consistent MultiGraspGoalSet.empty rm.
Proof.
  split; simpl.
  - intros gid _. apply lookup_empty.
  - intros rid [x Hx]. rewrite lookup_empty in Hx. discriminate.
Qed.

Lemma removeGoal_consistent (gid : N) (gs gs' : MultiGraspGoalSet.t) (rm : Roadmap.Roadmap) :
  goal_set_consistent gs rm ->
  MultiGraspGoalSet.removeGoal gid gs = Ok gs' ->
  goal_set_consistent gs' rm.
Proof.
  intros [Hg Hr]. unfold MultiGraspGoalSet.removeGoal.
  destruct (MultiGraspGoalSet._goals gs !! gid) as [g0|] eqn:E0.
  2:{ intros [= <-]. now split. }
  destruct (MultiGraspGoalSet._goal_id_to_roadmap_id gs !! gid) as [rid|]; [|discriminate].
  destruct (MultiGraspGoalSet._roadmap_id_to_goal_id gs !! rid) as [gid'|]; [|discriminate].
  simpl. destruct (gid' =? gid)%N; simpl; [|discriminate].
  intros [= <-]. split; simpl.
  - intros k Hk. destruct (decide (gid = k)) as [->|Hne].
    + apply lookup_delete_eq.
    + rewrite lookup_delete_ne by assumption.
      rewrite lookup_delete_ne in Hk by assumption. now apply Hg.
  - intros k [x Hx]. apply Hr. exists x.
    apply lookup_delete_Some in Hx. tauto.
Qed.

Lemma addGoal_consistent (goal : Goal.t) (gs gs' : MultiGraspGoalSet.t)
    (rm rm' : Roadmap.Roadmap) :
  goal_set_consistent gs rm ->
  (Roadmap._node_id_counter rm + 1 < 2 ^ 32)%N ->
  MultiGraspGoalSet.addGoal goal gs rm = Ok (gs', rm') ->
  goal_set_consistent gs' rm'.
Proof.
  intros [Hg Hr] Hsmall. rewrite addGoal_returns. intros [= <- <-]. split; simpl.
  - intros k Hk. unfold Roadmap.map_insert_new in Hk.
    destruct (MultiGraspGoalSet._goals gs !! Goal.id goal) as [old|] eqn:E.
    + assert (Goal.id goal <> k) by congruence.
      rewrite lookup_insert_ne by assumption. now apply Hg.
    + apply lookup_insert_None in Hk as [Hk Hne].
      rewrite lookup_insert_ne by assumption. now apply Hg.
  - intros rid Hrid. unfold Roadmap.uint_succ.
    rewrite N.mod_small by assumption.
    apply lookup_insert_is_Some in Hrid as [<-|[_ Hrid]]; [lia|].
    apply Hr in Hrid. lia.
Qed.

Lemma removeGoals_consistent (goal_ids : list N) (gs gs' : MultiGraspGoalSet.t)
    (rm : Roadmap.Roadmap) :
  goal_set_consistent gs rm ->
  MultiGraspGoalSet.removeGoals goal_ids gs = Ok gs' ->
  goal_set_consistent gs' rm.
Proof.
  revert gs. induction goal_ids as [|gid rest IH]; intros gs Hc; simpl.
  - now intros [= <-].
  - destruct (MultiGraspGoalSet.removeGoal gid gs) as [gs1| | |] eqn:E;
      simpl; try discriminate.
    apply IH. eapply removeGoal_consistent; eassumption.
Qed.

Lemma reachable_consistent (gs : MultiGraspGoalSet.t) (rm : Roadmap.Roadmap) :
  reachable gs rm -> goal_set_consistent gs rm.
Proof.
  induction 1 as [rm|goal gs gs' rm rm' _ IH Hsmall Hadd
                 |ids gs gs' rm _ IH Hrem|gs rm rm' _ IH Hle].
  - apply goal_set_consistent_empty.
  - eapply addGoal_consistent; eassumption.
  - eapply removeGoals_consistent; eassumption.
  - destruct IH as [Hg Hr]. split; [exact Hg|].
    intros rid Hrid. apply Hr in Hrid. lia.
Qed.

(** C8. For a goal whose id is not in the goal set, [addGoal] followed by
    [removeGoals] of that id restores the goal map and both cross-mappings
    of a consistent goal set. *)
Theorem addGoal_removeGoals_restores (goal : Goal.t) (gs : MultiGraspGoalSet.t)
    (rm : Roadmap.Roadmap) :
  goal_set_consistent gs rm ->
  MultiGraspGoalSet._goals gs !! Goal.id goal = None ->
  exists gs1 rm1,
    MultiGraspGoalSet.addGoal goal gs rm = Ok (gs1, rm1) /\
    MultiGraspGoalSet.removeGoals [Goal.id goal] gs1 = Ok gs.
Proof.
  intros [Hg Hr] Hnew. rewrite addGoal_returns. eexists _, _. split; [reflexivity|].
  assert (Hrid : MultiGraspGoalSet._roadmap_id_to_goal_id gs
                   !! Roadmap._node_id_counter rm = None).
  { destruct (MultiGraspGoalSet._roadmap_id_to_goal_id gs !! Roadmap._node_id_counter rm)
      as [x|] eqn:E; [|reflexivity].
    assert (Roadmap._node_id_counter rm < Roadmap._node_id_counter rm)%N
      by (apply Hr; eauto).
    lia. }
  simpl. unfold MultiGraspGoalSet.removeGoal; simpl.
  unfold Roadmap.map_insert_new. rewrite Hnew.
  rewrite !lookup_insert_eq. simpl.
  rewrite N.eqb_refl. simpl.
  rewrite !delete_insert_id by auto.
  destruct gs; reflexivity.
Qed.

Lemma addGoal_removeGoals_restores_witness :
  exists gs1 rm1,
    MultiGraspGoalSet.addGoal Samples.goal_a MultiGraspGoalSet.empty Roadmap.empty
      = Ok (gs1, rm1) /\
    MultiGraspGoalSet.removeGoals [7%N] gs1 = Ok MultiGraspGoalSet.empty.
Proof.
  apply (addGoal_removeGoals_restores Samples.goal_a MultiGraspGoalSet.empty Roadmap.empty).
  - apply goal_set_consistent_empty.
  - reflexivity.
Defined.

(** ** The goal heuristic is a snapshot *)

Lemma fold_add_to_grasp (goals : list Goal.t) (gid : N) :
  forall m : gmap N (list Goal.t),
    fold_left MGGoalDistance.add_to_grasp goals m !! gid
    = match filter (fun g => Goal.grasp_id g = gid) goals with
      | [] => m !! gid
      | fl => Some (default [] (m !! gid) ++ fl)
      end.
Proof.
  induction goals as [|g rest IH]; intros m; [reflexivity|].
  cbn [fold_left]. rewrite IH, filter_cons.
  unfold MGGoalDistance.add_to_grasp.
  destruct (decide (Goal.grasp_id g = gid)) as [E|E].
  - rewrite E. destruct (m !! gid) as [l|] eqn:El; rewrite lookup_insert_eq; simpl.
    + destruct (filter _ rest); [reflexivity|]. now rewrite <- app_assoc.
    + destruct (filter _ rest); reflexivity.
  - destruct (m !! Goal.grasp_id g); rewrite lookup_insert_ne by assumption; reflexivity.
Qed.





(* the answers are those of the goals at construction, not of the current
   goal set: once [goal_c] (grasp 2) is added and [goal_a] (grasp 1)
   removed, the heuristic constructed before still measures to [goal_a] and
   knows no goal of grasp 2, while one constructed afterwards measures to
   [goal_c] and knows no goal of grasp 1 *)
Lemma goal_distance_goes_stale :
  MultiGraspGoalSet.getGoals Samples.goals_after = [Samples.goal_c] /\
  MGGoalDistance.costToGo [1%Q]
    (MGGoalDistance.make Samples.goals_before Samples.euclid (Fin 1)) = Ok (Fin 1) /\
  MGGoalDistance.costToGo_grasp [1%Q] 2
    (MGGoalDistance.make Samples.goals_before Samples.euclid (Fin 1)) = Throw logic_error /\
  MGGoalDistance.costToGo [1%Q]
    (MGGoalDistance.make Samples.goals_after Samples.euclid (Fin 1)) = Ok (Fin 0) /\
  MGGoalDistance.costToGo_grasp [1%Q] 1
    (MGGoalDistance.make Samples.goals_after Samples.euclid (Fin 1)) = Throw logic_error.
Proof. vm_compute. repeat split; reflexivity. Qed.

(** ** LPA*: goal tracking *)






(** ** Deleting a node through a goal test *)

Lemma set_base_idem (c : dbl) (ev : bool) (o : option Roadmap.Edge) :
  Roadmap.set_base c ev <$> (Roadmap.set_base c ev <$> o) = Roadmap.set_base c ev <$> o.
Proof. now destruct o. Qed.

Lemma invalidate_edges_frame (es : list N) (rm : Roadmap.Roadmap) :
  Roadmap.node_heap (Roadmap.invalidate_edges es rm) = Roadmap.node_heap rm /\
  Roadmap._nn (Roadmap.invalidate_edges es rm) = Roadmap._nn rm /\
  Roadmap._nodes (Roadmap.invalidate_edges es rm) = Roadmap._nodes rm.
Proof.
  revert rm. induction es as [|e es IH]; intros rm; simpl; [auto|].
  destruct (IH (Roadmap.upd_edge e (Roadmap.set_base PInf true) rm)) as (H1 & H2 & H3).
  unfold Roadmap.invalidate_edges in *. rewrite H1, H2, H3. auto.
Qed.

Lemma invalidate_edges_lookup (es : list N) (rm : Roadmap.Roadmap) (e : N) :
  Roadmap.edge_heap (Roadmap.invalidate_edges es rm) !! e
  = if decide (e ∈ es)
    then Roadmap.set_base PInf true <$> Roadmap.edge_heap rm !! e
    else Roadmap.edge_heap rm !! e.
Proof.
  revert rm. induction es as [|a es IH]; intros rm.
  - simpl. destruct (decide (e ∈ [])) as [Hin|]; [|reflexivity].
    apply elem_of_nil in Hin. contradiction.
  - change (Roadmap.invalidate_edges (a :: es) rm)
      with (Roadmap.invalidate_edges es (Roadmap.upd_edge a (Roadmap.set_base PInf true) rm)).
    rewrite IH. simpl.
    destruct (decide (a = e)) as [->|Hne].
    + rewrite lookup_alter_eq, set_base_idem.
      rewrite (decide_True (P := e ∈ e :: es)) by apply list_elem_of_here.
      destruct (decide (e ∈ es)); reflexivity.
    + rewrite lookup_alter_ne by assumption.
      destruct (decide (e ∈ es)) as [Hin|Hout].
      * rewrite decide_True; [reflexivity|]. now apply list_elem_of_further.
      * rewrite decide_False; [reflexivity|].
        intros Hin. apply elem_of_cons in Hin as [->|Hin]; auto.
Qed.

Lemma deleteNode_effect (node : N) (rm : Roadmap.Roadmap) (n : Roadmap.Node) :
  Roadmap.node_heap rm !! node = Some n ->
  is_Some (Roadmap._nodes rm !! Roadmap.uid n) ->
  exists rm',
    Roadmap.deleteNode node rm = Ok rm' /\
    Roadmap._nodes rm' = delete (Roadmap.uid n) (Roadmap._nodes rm) /\
    Roadmap._nn rm' = filter (fun l => l ≠ node) (Roadmap._nn rm) /\
    Roadmap.node_heap rm' = Roadmap.node_heap rm /\
    (forall k e, Roadmap.edges n !! k = Some e ->
       Roadmap.edge_heap rm' !! e
       = Roadmap.set_base PInf true <$> Roadmap.edge_heap rm !! e).
Proof.
  intros Hn Hreg. unfold Roadmap.deleteNode, Roadmap.get_node. rewrite Hn. simpl.
  rewrite bool_decide_eq_true_2 by assumption. simpl.
  eexists. split; [reflexivity|].
  match goal with |- context [Roadmap.invalidate_edges ?es ?r] =>
    destruct (invalidate_edges_frame es r) as (H1 & H2 & H3) end.
  rewrite H1, H2, H3. simpl. repeat split.
  intros k e Hke. rewrite invalidate_edges_lookup. simpl.
  rewrite decide_True; [reflexivity|].
  apply list_elem_of_fmap. exists (k, e). split; [reflexivity|].
  now apply elem_of_map_to_list.
Qed.




(** ** Refreshing the adjacency of a node *)

Lemma map_insert_new_subseteq {V} (k : N) (x : V) (m : gmap N V) :
  m ⊆ Roadmap.map_insert_new k x m.
Proof.
  unfold Roadmap.map_insert_new. destruct (m !! k) eqn:E; [reflexivity|].
  now apply insert_subseteq.
Qed.

Lemma extends_refl (rm : Roadmap.Roadmap) : edges_fresh rm -> extends rm rm.
Proof.
  intros Hf. split; [|split]; auto.
  intros l x Hx. exists x. split; [assumption|reflexivity].
Qed.

Lemma extends_trans (rm1 rm2 rm3 : Roadmap.Roadmap) :
  extends rm1 rm2 -> extends rm2 rm3 -> extends rm1 rm3.
Proof.
  intros (N1 & E1 & _) (N2 & E2 & F3). split; [|split]; auto.
  intros l x Hx.
  destruct (N1 l x Hx) as (x' & Hx' & S1).
  destruct (N2 l x' Hx') as (x'' & Hx'' & S2).
  exists x''. split; [assumption|]. now transitivity (Roadmap.edges x').
Qed.

Lemma upd_node_extends (l : N) (f : Roadmap.Node -> Roadmap.Node) (rm : Roadmap.Roadmap) :
  (forall x, Roadmap.edges x ⊆ Roadmap.edges (f x)) ->
  edges_fresh rm ->
  extends rm (Roadmap.upd_node l f rm).
Proof.
  intros Hf Hfresh. split; [|split]; auto.
  intros l' x Hx. simpl. rewrite lookup_alter.
  destruct (decide (l = l')) as [->|Hne].
  - rewrite Hx. simpl. eauto.
  - exists x. split; [assumption|reflexivity].
Qed.

Lemma connect_extends (cc : Roadmap.EdgeCostComputer) (node neigh : N)
    (rm : Roadmap.Roadmap) :
  edges_fresh rm ->
  is_Some (Roadmap.node_heap rm !! node) ->
  is_Some (Roadmap.node_heap rm !! neigh) ->
  exists rm', Roadmap.connect cc node rm neigh = Ok rm' /\ extends rm rm'.
Proof.
  intros Hfresh [n Hn] [m Hm]. unfold Roadmap.connect, Roadmap.get_node.
  rewrite Hn, Hm. simpl.
  destruct (bool_decide (Roadmap.edges n !! Roadmap.uid m = None) && negb (neigh =? node)%N).
  2:{ eexists. split; [reflexivity|]. now apply extends_refl. }
  eexists. split; [reflexivity|].
  match goal with |- extends _ (Roadmap.upd_node _ ?f2 (Roadmap.upd_node _ ?f1 ?r1)) =>
    assert (H1 : extends rm r1); [|
      assert (F1 : edges_fresh r1) by apply H1;
      pose proof (upd_node_extends node f1 r1) as H2;
      pose proof (upd_node_extends neigh f2 (Roadmap.upd_node node f1 r1)) as H3]
  end.
  - split; [|split].
    + intros l x Hx. exists x. split; [exact Hx|reflexivity].
    + intros e ed He. simpl. rewrite lookup_insert_ne; [exact He|].
      intros <-. rewrite Hfresh in He by lia. discriminate.
    + intros e He. simpl in *. rewrite lookup_insert_ne by lia. apply Hfresh. lia.
  - eapply extends_trans; [exact H1|].
    eapply extends_trans.
    + apply H2; [|exact F1]. intros x. apply map_insert_new_subseteq.
    + apply H3; [intros x; apply map_insert_new_subseteq|]. apply H2; [|exact F1].
      intros x. apply map_insert_new_subseteq.
Qed.

Lemma connect_all_extends (cc : Roadmap.EdgeCostComputer) (node : N)
    (neighbors : list N) (rm : Roadmap.Roadmap) :
  edges_fresh rm ->
  is_Some (Roadmap.node_heap rm !! node) ->
  Forall (fun l => is_Some (Roadmap.node_heap rm !! l)) neighbors ->
  exists rm', Roadmap.connect_all cc node neighbors rm = Ok rm' /\ extends rm rm'.
Proof.
  revert rm. induction neighbors as [|neigh rest IH]; intros rm Hfresh Hnode Hall.
  - eexists. split; [reflexivity|]. now apply extends_refl.
  - inversion Hall as [|? ? Hneigh Hrest]; subst.
    destruct (connect_extends cc node neigh rm Hfresh Hnode Hneigh) as (rm1 & Hc & Hext).
    assert (Hdom : forall l, is_Some (Roadmap.node_heap rm !! l) ->
                             is_Some (Roadmap.node_heap rm1 !! l)).
    { intros l [x Hx]. destruct Hext as (Hn & _). destruct (Hn l x Hx) as (x' & Hx' & _).
      eauto. }
    destruct (IH rm1) as (rm2 & Hc2 & Hext2).
    + apply Hext.
    + now apply Hdom.
    + eapply Forall_impl; [exact Hrest|]. intros l. apply Hdom.
    + exists rm2. split; [|eapply extends_trans; eassumption].
      simpl. rewrite Hc. simpl. exact Hc2.
Qed.

Lemma nearestR_in_heap (ss : Roadmap.StateSpace) (rm : Roadmap.Roadmap)
    (cfg : Config) (r : dbl) :
  Forall (fun l => is_Some (Roadmap.node_heap rm !! l)) (Roadmap.nearestR ss rm cfg r).
Proof.
  apply Forall_forall. intros l Hin. unfold Roadmap.nearestR in Hin.
  apply list_elem_of_filter in Hin as [Hw _]. unfold Roadmap.within in Hw.
  destruct (Roadmap.node_heap rm !! l); [eauto|discriminate].
Qed.

Lemma edge_invalid_kept (rm rm' : Roadmap.Roadmap) (e : N) :
  (forall e ed, Roadmap.edge_heap rm !! e = Some ed -> Roadmap.edge_heap rm' !! e = Some ed) ->
  Roadmap.edge_invalid rm e = true -> Roadmap.edge_invalid rm' e = true.
Proof.
  intros Hkeep. unfold Roadmap.edge_invalid.
  destruct (Roadmap.edge_heap rm !! e) as [ed|] eqn:E; [|discriminate].
  now rewrite (Hkeep e ed E).
Qed.

(** C5 (as the code has it). After [updateAdjacency(n)] no edge that was
    evaluated with infinite base cost is left in the adjacency map of [n];
    the adjacency map of every other node, the other endpoint included,
    keeps all the entries it had. *)
Theorem updateAdjacency_prunes_own_map (ss : Roadmap.StateSpace)
    (cc : Roadmap.EdgeCostComputer) (radius : nat -> dbl) (node : N)
    (rm : Roadmap.Roadmap) :
  is_Some (Roadmap.node_heap rm !! node) ->
  edges_fresh rm ->
  exists rm' n',
    Roadmap.updateAdjacency ss cc radius node rm = Ok rm' /\
    Roadmap.node_heap rm' !! node = Some n' /\
    (forall e, Roadmap.edge_invalid rm e = true ->
               forall k, Roadmap.edges n' !! k <> Some e) /\
    (forall m nm, m <> node -> Roadmap.node_heap rm !! m = Some nm ->
       exists nm', Roadmap.node_heap rm' !! m = Some nm' /\
                   Roadmap.edges nm ⊆ Roadmap.edges nm').
Proof.
  intros Hnode Hfresh. pose proof Hnode as [n Hn].
  unfold Roadmap.updateAdjacency, Roadmap.get_node. rewrite Hn. simpl.
  assert (Hrefresh : exists rm1,
    (if negb (Roadmap.densification_gen n =? Roadmap._densification_gen rm)%N
     then rm' <~ Roadmap.connect_all cc node
                   (Roadmap.nearestR ss rm (Roadmap.config n)
                      (radius (length (Roadmap._nn rm)))) rm;;
          Ok (Roadmap.upd_node node
                (Roadmap.set_densification_gen (Roadmap._densification_gen rm')) rm')
     else Ok rm) = Ok rm1 /\ extends rm rm1).
  { destruct (negb _).
    - destruct (connect_all_extends cc node
                  (Roadmap.nearestR ss rm (Roadmap.config n)
                     (radius (length (Roadmap._nn rm)))) rm Hfresh Hnode
                  (nearestR_in_heap ss rm _ _)) as (rm1 & Hc & Hext).
      rewrite Hc. simpl. eexists. split; [reflexivity|].
      eapply extends_trans; [exact Hext|].
      apply upd_node_extends; [intros x; reflexivity|apply Hext].
    - eexists. split; [reflexivity|]. now apply extends_refl. }
  destruct Hrefresh as (rm1 & -> & (Hnodes & Hedges & _)). simpl.
  destruct (Hnodes node n Hn) as (n1 & Hn1 & _).
  eexists _, _. split; [reflexivity|]. split; [|split].
  - unfold Roadmap.prune. simpl. rewrite lookup_alter_eq, Hn1. reflexivity.
  - intros e Hdead k Hk. simpl in Hk.
    apply map_lookup_filter_Some in Hk as [_ Hlive]. simpl in Hlive.
    rewrite (edge_invalid_kept rm rm1 e Hedges Hdead) in Hlive. discriminate.
  - intros m nm Hne Hm. destruct (Hnodes m nm Hm) as (nm' & Hm' & Hsub).
    exists nm'. split; [|exact Hsub].
    unfold Roadmap.prune. simpl. rewrite lookup_alter_ne by auto. exact Hm'.
Qed.

Lemma dead_rm_edges_fresh : edges_fresh Samples.dead_rm.
Proof.
  intros e He.
  assert (Hheap : Roadmap.edge_heap Samples.dead_rm
                  = {[ 0%N := Roadmap.mkEdge PInf true ∅ 0 1 ]})
    by (vm_compute; reflexivity).
  assert (Hnext : Roadmap.next_edge Samples.dead_rm = 1%N) by (vm_compute; reflexivity).
  rewrite Hheap. rewrite Hnext in He. apply lookup_singleton_ne. lia.
Qed.

Lemma updateAdjacency_prunes_own_map_witness :
  exists rm' n',
    Roadmap.updateAdjacency Scene.blocked (Scene.computer Scene.blocked)
      (fun _ => Fin 2%Q) 0 Samples.dead_rm = Ok rm' /\
    Roadmap.node_heap rm' !! 0%N = Some n' /\
    (forall e, Roadmap.edge_invalid Samples.dead_rm e = true ->
               forall k, Roadmap.edges n' !! k <> Some e) /\
    (forall m nm, m <> 0%N -> Roadmap.node_heap Samples.dead_rm !! m = Some nm ->
       exists nm', Roadmap.node_heap rm' !! m = Some nm' /\
                   Roadmap.edges nm ⊆ Roadmap.edges nm').
Proof.
  apply (updateAdjacency_prunes_own_map Scene.blocked (Scene.computer Scene.blocked)
           (fun _ => Fin 2%Q) 0 Samples.dead_rm).
  - exists Samples.blocked_node0. vm_compute. reflexivity.
  - exact dead_rm_edges_fresh.
Defined.

(** C5 as stated fails for the other endpoint: the edge 0 -- 1 is evaluated
    with infinite base cost and both nodes are in the roadmap; after
    [updateAdjacency] of node 0 the edge is gone from the map of node 0 and
    still in the map of node 1. *)
Lemma dead_edge_stays_at_other_endpoint :
  Roadmap.edge_invalid Samples.dead_rm 0 = true /\
  match Roadmap.updateAdjacency Scene.blocked (Scene.computer Scene.blocked)
          (fun _ => Fin 2%Q) 0 Samples.dead_rm with
  | Ok rm' =>
      exists ed n0 n1,
        Roadmap.edge_heap rm' !! 0%N = Some ed /\
        Roadmap.base_evaluated ed = true /\ Roadmap.base_cost ed = PInf /\
        Roadmap.node_a ed = 0%N /\ Roadmap.node_b ed = 1%N /\
        Roadmap.node_heap rm' !! 0%N = Some n0 /\
        Roadmap.node_heap rm' !! 1%N = Some n1 /\
        Roadmap.edges n0 !! Roadmap.uid n1 = None /\
        Roadmap.edges n1 !! Roadmap.uid n0 = Some 0%N
  | _ => False
  end.
Proof.
  split; [vm_compute; reflexivity|].
  vm_compute. eexists _, _, _. repeat split; reflexivity.
Qed.

(** ** Comparing rationals *)

Lemma Qltb_false (a b : Q) : Qltb a b = false <-> (b <= a)%Q.
Proof.
  unfold Qltb. rewrite negb_false_iff. apply Qle_bool_iff.
Qed.

Lemma Qltb_true (a b : Q) : Qltb a b = true <-> (a < b)%Q.
Proof.
  unfold Qltb. rewrite negb_true_iff. split.
  - intros H. apply Qnot_le_lt. intros Hle. apply Qle_bool_iff in Hle. congruence.
  - intros H. destruct (Qle_bool b a) eqn:E; [|reflexivity].
    apply Qle_bool_iff in E. exfalso. apply (Qlt_not_le _ _ H E).
Qed.

(** ** The base cost of an edge and its lower bound *)

Lemma connect_creates_at_lower_bound (cc : Roadmap.EdgeCostComputer) (node neigh : N)
    (rm : Roadmap.Roadmap) (n m : Roadmap.Node) :
  Roadmap.node_heap rm !! node = Some n ->
  Roadmap.node_heap rm !! neigh = Some m ->
  Roadmap.edges n !! Roadmap.uid m = None ->
  neigh <> node ->
  exists rm',
    Roadmap.connect cc node rm neigh = Ok rm' /\
    Roadmap.edge_heap rm' !! Roadmap.next_edge rm
    = Some (Roadmap.mkEdge
              (Roadmap.lowerBound cc (Roadmap.config n) (Roadmap.config m))
              false ∅ node neigh).
Proof.
  intros Hn Hm Hnone Hne. unfold Roadmap.connect, Roadmap.get_node.
  rewrite Hn, Hm. simpl.
  rewrite bool_decide_eq_true_2 by assumption.
  assert ((neigh =? node)%N = false) as -> by now apply N.eqb_neq.
  simpl. eexists. split; [reflexivity|]. simpl. apply lookup_insert_eq.
Qed.

(** C1. [base_cost] does not stay at or above the lower bound.  On the line
    of clearance 2 the point cost is 1/2; the edge from 0 to 1 is created
    with base cost 1, the lower bound of its endpoints, and [computeCost]
    reports it valid and replaces the base cost by the integral 1/2 of the
    point cost, which is below [lowerBound] of the same endpoints. *)
Theorem base_cost_below_lower_bound :
  match Scene.connected (Scene.line (Fin 2)) with
  | Ok rm =>
      Roadmap.edge_heap rm !! 0%N = Some (Roadmap.mkEdge (Fin 1) false ∅ 0 1) /\
      match Roadmap.computeCost Samples.wide_cc 0 rm with
      | Ok (r, rm') =>
          r.1 = true /\
          exists ed a b,
            Roadmap.edge_heap rm' !! 0%N = Some ed /\
            Roadmap.lock rm' (Roadmap.node_a ed) = Some a /\
            Roadmap.lock rm' (Roadmap.node_b ed) = Some b /\
            Roadmap.lowerBound Samples.wide_cc (Roadmap.config a) (Roadmap.config b)
              = Fin 1 /\
            eqb (Roadmap.base_cost ed) (Fin (1 # 2)) = true /\
            leb (Roadmap.lowerBound Samples.wide_cc (Roadmap.config a) (Roadmap.config b))
                (Roadmap.base_cost ed) = false
      | _ => False
      end
  | _ => False
  end.
Proof.
  vm_compute. split; [reflexivity|]. split; [reflexivity|].
  eexists _, _, _. repeat split; reflexivity.
Qed.

(** ** The two integrators *)

(** C6. On the segment from 0 to 1/2000 with point cost 1 everywhere, one
    sample is taken (the step is 1/1000). [ORSceneInterface::integrateCosts]
    weights it with the full step and returns 1/1000;
    [IntegralEdgeCostComputer::integrateCosts], with the same step, weights
    it with the remaining length and returns 1/2000. *)
Theorem integrators_differ_on_last_step :
  match Integrator.or_integrateCosts Integrator.Qsqrt (fun _ => Fin 1) [0%Q] [1 # 2000],
        Integrator.integrateCosts Integrator.Qsqrt Integrator.STEP_SIZE
          [0%Q] [1 # 2000] (fun _ => Fin 1) with
  | Ok x, Ok y =>
      eqb x (Fin (1 # 1000)) = true /\
      eqb y (Fin (1 # 2000)) = true /\
      eqb x y = false
  | _, _ => False
  end.
Proof. vm_compute. repeat split; reflexivity. Qed.

(** ** LPA*: the main loop *)

Lemma ltb_PInf (x : dbl) : ltb PInf x = false.
Proof. now destruct x. Qed.

Lemma lex_lt_top (k : LPAStar.Key) : LPAStar.lex_lt (PInf, PInf) k = false.
Proof.
  destruct k as [k1 k2]. unfold LPAStar.lex_lt.
  cbn [fst snd]. rewrite !ltb_PInf. now rewrite andb_false_r.
Qed.

(* the state the successor loop of the underconsistent branch runs in: the
   expanded vertex has its data, and the first successor, if it has data at
   all, does not have the expanded vertex as parent *)
Lemma handleCostIncrease_foreign (key_lt : LPAStar.Key -> LPAStar.Key -> bool)
    (G : LPAStar.Graph) (u s : N) (st : LPAStar.LPAStarAlgorithm)
    (ud : LPAStar.VertexData) :
  s <> u ->
  LPAStar._vertex_data st !! u = Some ud -> LPAStar.v ud = u ->
  (forall d, LPAStar._vertex_data st !! s = Some d -> LPAStar.p d <> u) ->
  exists st',
    LPAStar.handleCostIncrease key_lt G u s (LPAStar.getVertexData G s st) = Ok st' /\
    LPAStar._vertex_data st' !! u = Some ud /\
    (forall d, LPAStar._vertex_data st' !! s = Some d -> LPAStar.p d <> u).
Proof.
  intros Hne Hu Hv Hs.
  assert (Hst : exists sd,
            LPAStar._vertex_data (LPAStar.getVertexData G s st) !! s = Some sd /\
            LPAStar.p sd <> u /\
            LPAStar._vertex_data (LPAStar.getVertexData G s st) !! u = Some ud).
  { unfold LPAStar.getVertexData.
    destruct (LPAStar._vertex_data st !! s) as [sd|] eqn:E.
    - exists sd. auto.
    - eexists. simpl. rewrite lookup_insert_eq.
      split; [reflexivity|]. split; [exact Hne|].
      rewrite lookup_insert_ne by assumption. exact Hu. }
  destruct Hst as (sd & Hsd & Hp & Hu').
  exists (LPAStar.getVertexData G s st). split; [|split].
  - unfold LPAStar.handleCostIncrease, LPAStar.vertex. rewrite Hu', Hsd. simpl.
    rewrite Hv. assert ((LPAStar.p sd =? u)%N = false) as -> by now apply N.eqb_neq.
    reflexivity.
  - exact Hu'.
  - intros d Hd. rewrite Hsd in Hd. now injection Hd as <-.
Qed.

Lemma raise_successors_never_ends (key_lt : LPAStar.Key -> LPAStar.Key -> bool)
    (G : LPAStar.Graph) (u s : N) (rest : list N) (ud : LPAStar.VertexData)
    (fuel : nat) :
  s <> u -> LPAStar.v ud = u ->
  forall (end_iter : nat) (st : LPAStar.LPAStarAlgorithm),
    (0 < end_iter)%nat ->
    LPAStar._vertex_data st !! u = Some ud ->
    (forall d, LPAStar._vertex_data st !! s = Some d -> LPAStar.p d <> u) ->
    LPAStar.raise_successors key_lt G fuel u (s :: rest) 0 end_iter st = OutOfFuel.
Proof.
  intros Hne Hv. induction fuel as [|fuel IH]; intros end_iter st Hpos Hu Hs.
  - simpl. destruct end_iter; [lia|reflexivity].
  - simpl. destruct end_iter as [|e]; [lia|]. simpl.
    destruct (handleCostIncrease_foreign key_lt G u s st ud Hne Hu Hv Hs)
      as (st' & Hrun & Hu' & Hs').
    rewrite Hrun. simpl. apply IH; [lia|assumption|assumption].
Qed.

(* the same when the first successor is the expanded vertex itself *)
Lemma ltb_not_PInf (x y : dbl) : ltb x y = true -> neb PInf x = true.
Proof. destruct x, y; simpl; try discriminate; reflexivity. Qed.

Lemma getVertexData_expanding (G : LPAStar.Graph) (u s : N) (st : LPAStar.LPAStarAlgorithm) :
  expanding u st ->
  expanding u (LPAStar.getVertexData G s st) /\
  is_Some (LPAStar._vertex_data (LPAStar.getVertexData G s st) !! s).
Proof.
  intros (ud & Hu & Hrest). unfold LPAStar.getVertexData.
  destruct (LPAStar._vertex_data st !! s) as [sd|] eqn:E.
  - split; [exists ud; auto|]. rewrite E. eauto.
  - split.
    + exists ud. simpl. rewrite lookup_insert_ne by congruence. auto.
    + simpl. rewrite lookup_insert_eq. eauto.
Qed.

Lemma reparent_expanding (G : LPAStar.Graph) (u : N) (preds : list N)
    (st : LPAStar.LPAStarAlgorithm) :
  expanding u st ->
  exists st', LPAStar.reparent G u preds st = Ok st' /\ expanding u st'.
Proof.
  revert st. induction preds as [|s rest IH]; intros st Hinv; simpl.
  - eauto.
  - destruct (getVertexData_expanding G u s st Hinv) as [Hinv1 [sd Hsd]].
    set (st1 := LPAStar.getVertexData G s st) in *.
    destruct Hinv1 as (ud & Hu & Hv & Hg & Hrhs & Hq).
    unfold LPAStar.vertex. rewrite Hsd, Hu. cbn [rbind].
    destruct (ltb _ (LPAStar.rhs ud)) eqn:Hlt.
    + apply IH. eexists. simpl. rewrite lookup_alter_eq, Hu. simpl.
      split; [reflexivity|]. simpl. repeat split; auto.
      eapply ltb_not_PInf; eassumption.
    + apply IH. exists ud. auto.
Qed.

Lemma pq_key_update (hd : option N) (k k0 : LPAStar.Key) (q q' : LPAStar.PQ) :
  LPAStar.pq_key hd q = Ok k0 ->
  LPAStar.pq_update hd k q = Ok q' ->
  exists k', LPAStar.pq_key hd q' = Ok k'.
Proof.
  unfold LPAStar.pq_update. intros Hk. rewrite Hk. cbn [rbind]. intros [= <-].
  unfold LPAStar.pq_key in *. destruct hd as [hd|]; [|discriminate].
  unfold LPAStar.pq_find in *. simpl.
  destruct (List.find (fun x => (x.1 =? hd)%N) (LPAStar.heap q)) as [x|] eqn:F;
    [|discriminate].
  clear Hk. revert F. induction (LPAStar.heap q) as [|y l IHl]; simpl; [discriminate|].
  destruct (y.1 =? hd)%N eqn:E.
  - intros _. apply N.eqb_eq in E. rewrite bool_decide_eq_true_2 by congruence.
    simpl. rewrite E, N.eqb_refl. simpl. eauto.
  - intros F. assert (Some y.1 <> Some hd).
    { intros [= H]. apply N.eqb_neq in E. contradiction. }
    rewrite bool_decide_eq_false_2 by assumption. simpl. rewrite E. auto.
Qed.

Lemma pq_key_push (el : LPAStar.PQElement) (q : LPAStar.PQ) :
  exists k, LPAStar.pq_key (Some (LPAStar.pq_push el q).1) (LPAStar.pq_push el q).2 = Ok k.
Proof.
  unfold LPAStar.pq_key, LPAStar.pq_find, LPAStar.pq_push. simpl.
  induction (LPAStar.heap q) as [|y l IHl]; simpl.
  - rewrite N.eqb_refl. simpl. eauto.
  - destruct (y.1 =? LPAStar.next_handle q)%N; simpl; eauto.
Qed.

Lemma updateVertexKey_expanding (key_lt : LPAStar.Key -> LPAStar.Key -> bool)
    (G : LPAStar.Graph) (u : N) (st : LPAStar.LPAStarAlgorithm) :
  expanding u st ->
  exists st', LPAStar.updateVertexKey key_lt G u st = Ok st' /\ expanding u st'.
Proof.
  intros (ud & Hu & Hv & Hg & Hrhs & Hq).
  assert (Hm : exists st1, LPAStar.updateMembership key_lt u st = Ok st1 /\ expanding u st1).
  { unfold LPAStar.updateMembership, LPAStar.vertex. rewrite Hu. cbn [rbind].
    rewrite Hg, Hrhs. cbn [andb].
    destruct (LPAStar.in_pq ud) eqn:Hin.
    - destruct (Hq eq_refl) as (k & Hk). rewrite Hk. cbn [rbind].
      destruct (LPAStar.pq_update (LPAStar.pq_handle ud)
                  (LPAStar.computeKey PInf (LPAStar.h ud) (LPAStar.rhs ud))
                  (LPAStar._pq st)) as [q'| | |] eqn:Hup.
      + cbn [rbind]. eexists. split; [reflexivity|].
        exists ud. simpl. repeat split; auto.
        intros _. eapply pq_key_update; eassumption.
      + unfold LPAStar.pq_update in Hup. rewrite Hk in Hup. discriminate.
      + unfold LPAStar.pq_update in Hup. rewrite Hk in Hup. discriminate.
      + unfold LPAStar.pq_update in Hup. rewrite Hk in Hup. discriminate.
    - cbn [negb]. eexists. split; [reflexivity|].
      eexists. simpl. rewrite lookup_alter_eq, Hu. simpl. split; [reflexivity|].
      simpl. repeat split; auto. intros _. apply pq_key_push. }
  destruct Hm as (st1 & Hm & (ud1 & Hu1 & Hrest)).
  unfold LPAStar.updateVertexKey. rewrite Hm. cbn [rbind].
  unfold LPAStar.updateGoal, LPAStar.vertex. rewrite Hu1. cbn [rbind].
  destruct (LPAStar.isGoal G (LPAStar.v ud1)).
  - destruct (key_lt _ _); eexists; (split; [reflexivity|]); exists ud1; auto.
  - eexists. split; [reflexivity|]. exists ud1. auto.
Qed.

Lemma handleCostIncrease_self (key_lt : LPAStar.Key -> LPAStar.Key -> bool)
    (G : LPAStar.Graph) (u : N) (st : LPAStar.LPAStarAlgorithm) :
  expanding u st ->
  exists st', LPAStar.handleCostIncrease key_lt G u u (LPAStar.getVertexData G u st) = Ok st'
              /\ expanding u st'.
Proof.
  intros Hinv. destruct (getVertexData_expanding G u u st Hinv) as [Hinv1 _].
  set (st1 := LPAStar.getVertexData G u st) in *.
  pose proof Hinv1 as (ud & Hu & Hv & Hrest).
  unfold LPAStar.handleCostIncrease, LPAStar.vertex. rewrite Hu. cbn [rbind].
  destruct (LPAStar.p ud =? LPAStar.v ud)%N.
  - destruct (reparent_expanding G u
                (LPAStar.getPredecessors G (LPAStar.v ud) (LPAStar._lazy st1)) st1 Hinv1)
      as (st2 & Hr & Hinv2).
    rewrite Hr. cbn [rbind]. now apply updateVertexKey_expanding.
  - eauto.
Qed.

Lemma raise_successors_self (key_lt : LPAStar.Key -> LPAStar.Key -> bool)
    (G : LPAStar.Graph) (u : N) (rest : list N) (fuel : nat) :
  forall (end_iter : nat) (st : LPAStar.LPAStarAlgorithm),
    (0 < end_iter)%nat ->
    expanding u st ->
    LPAStar.raise_successors key_lt G fuel u (u :: rest) 0 end_iter st = OutOfFuel.
Proof.
  induction fuel as [|fuel IH]; intros end_iter st Hpos Hinv.
  - simpl. destruct end_iter; [lia|reflexivity].
  - simpl. destruct end_iter as [|e]; [lia|]. simpl.
    destruct (handleCostIncrease_self key_lt G u st Hinv) as (st' & Hrun & Hinv').
    rewrite Hrun. simpl. apply IH; [lia|assumption].
Qed.

(* an expansion that takes the underconsistent branch *)
Lemma loop_body_underconsistent (key_lt : LPAStar.Key -> LPAStar.Key -> bool)
    (G : LPAStar.Graph) (fuel : nat) (st : LPAStar.LPAStarAlgorithm)
    (hd : N) (el : LPAStar.PQElement) (q : LPAStar.PQ) (ud : LPAStar.VertexData) :
  LPAStar.pq_top key_lt (LPAStar._pq st) = Ok (hd, el) ->
  key_lt (LPAStar._goal_key st) (LPAStar.key el) = false ->
  LPAStar.pq_pop key_lt (LPAStar._pq st) = Ok q ->
  LPAStar._vertex_data st !! LPAStar.el_v el = Some ud ->
  LPAStar.v ud = LPAStar.el_v el ->
  gtb (LPAStar.g ud) (LPAStar.rhs ud) = false ->
  LPAStar.loop_body key_lt G fuel st
  = (st3 <~ LPAStar.raise_successors key_lt G fuel (LPAStar.el_v el)
              (LPAStar.getSuccessors G (LPAStar.el_v el) (LPAStar._lazy st)) 0
              (length (LPAStar.getSuccessors G (LPAStar.el_v el) (LPAStar._lazy st)))
              (LPAStar.upd_vertex (LPAStar.el_v el) (LPAStar.set_g PInf)
                 (LPAStar.with_pq q st));;
     LPAStar.updateVertexKey key_lt G (LPAStar.el_v el) st3).
Proof.
  intros Htop Hassert Hpop Hu Hv Hunder.
  unfold LPAStar.loop_body. rewrite Htop. cbn [rbind snd].
  rewrite Hassert. cbn [negb assert rbind]. rewrite Hpop. cbn [rbind].
  assert (Hget : LPAStar.getVertexData G (LPAStar.el_v el) (LPAStar.with_pq q st)
                 = LPAStar.with_pq q st).
  { unfold LPAStar.getVertexData. simpl. now rewrite Hu. }
  rewrite Hget. unfold LPAStar.vertex at 1. simpl LPAStar._vertex_data at 1.
  rewrite Hu. cbn [rbind]. rewrite Hunder, Hv. reflexivity.
Qed.

Lemma pq_pop_singleton (key_lt : LPAStar.Key -> LPAStar.Key -> bool)
    (hd n : N) (el : LPAStar.PQElement) :
  LPAStar.pq_pop key_lt (LPAStar.mkPQ [(hd, el)] n) = Ok (LPAStar.mkPQ [] n).
Proof.
  unfold LPAStar.pq_pop. simpl.
  rewrite (filter_cons_False (fun x : N * LPAStar.PQElement => x.1 ≠ hd)) by (simpl; auto).
  reflexivity.
Qed.

Lemma make_valid (G : LPAStar.Graph) (lazy : bool) (uninit : bool * dbl * dbl * N) :
  LPAStar.checkValidity G (LPAStar.getStartNode G) = true ->
  LPAStar.make G lazy uninit
  = LPAStar.mkLPA
      (LPAStar.mkPQ
         [(0%N, LPAStar.mkPQElement (LPAStar.getStartNode G)
                  (LPAStar.computeKey (Fin 0)
                     (LPAStar.heuristic G (LPAStar.getStartNode G)) (Fin 0)))] 1)
      {[ LPAStar.getStartNode G :=
           LPAStar.mkVertexData (LPAStar.getStartNode G) (Fin 0)
             (LPAStar.heuristic G (LPAStar.getStartNode G)) (Fin 0)
             (LPAStar.getStartNode G) false (Some 0%N) ]}
      (mkSearchResult false [] PInf PInf (LPAStar.getStartNode G))
      (PInf, PInf) lazy (LPAStar.getStartNode G).
Proof. intros Hvalid. unfold LPAStar.make. rewrite Hvalid. reflexivity. Qed.

(** C2. [computeShortestPath] does not terminate on a finite graph whose
    valid start vertex has a successor: the first vertex popped is the start
    with [g = rhs = 0], the underconsistent branch is taken, and its
    successor loop advances [end_iter] instead of [iter], so that it stays
    at the first successor for ever.  Whatever the loop bound, the run
    exhausts it. *)
Theorem computeShortestPath_never_returns (G : LPAStar.Graph) (lazy : bool)
    (uninit : bool * dbl * dbl * N) (s : N) (rest : list N) (fuel : nat) :
  LPAStar.checkValidity G (LPAStar.getStartNode G) = true ->
  LPAStar.getSuccessors G (LPAStar.getStartNode G) lazy = s :: rest ->
  LPAStar.computeShortestPath LPAStar.lex_lt G fuel (LPAStar.make G lazy uninit)
  = OutOfFuel.
Proof.
  intros Hvalid Hsucc. unfold LPAStar.computeShortestPath.
  assert (Hloop : LPAStar.main_loop LPAStar.lex_lt G fuel (LPAStar.make G lazy uninit)
                  = OutOfFuel); [|now rewrite Hloop].
  destruct fuel as [|fuel]; [reflexivity|].
  rewrite (make_valid G lazy uninit Hvalid).
  match goal with |- LPAStar.main_loop _ _ _ ?st = _ => set (st0 := st) end.
  assert (Htest : LPAStar.loop_test LPAStar.lex_lt st0 = Ok true).
  { unfold LPAStar.loop_test. simpl. now rewrite orb_true_r. }
  assert (Hbody : LPAStar.loop_body LPAStar.lex_lt G fuel st0 = OutOfFuel).
  { erewrite loop_body_underconsistent.
    2: reflexivity.
    2: apply lex_lt_top.
    2: apply pq_pop_singleton.
    2: simpl; apply lookup_singleton_eq.
    2: reflexivity.
    2: reflexivity.
    cbn [LPAStar.el_v LPAStar._lazy st0]. rewrite Hsucc.
    destruct (decide (s = LPAStar.getStartNode G)) as [->|Hne].
    - rewrite raise_successors_self; [reflexivity|simpl; lia|].
      eexists. simpl. rewrite lookup_alter_eq, lookup_singleton_eq. simpl.
      split; [reflexivity|]. simpl. repeat split; solve [reflexivity | discriminate].
    - rewrite (raise_successors_never_ends LPAStar.lex_lt G (LPAStar.getStartNode G)
                 s rest
                 (LPAStar.set_g PInf
                    (LPAStar.mkVertexData (LPAStar.getStartNode G) (Fin 0)
                       (LPAStar.heuristic G (LPAStar.getStartNode G)) (Fin 0)
                       (LPAStar.getStartNode G) false (Some 0%N))));
        [reflexivity|exact Hne|reflexivity|simpl; lia| |].
      + simpl. rewrite lookup_alter_eq, lookup_singleton_eq. reflexivity.
      + intros d Hd. simpl in Hd. rewrite lookup_alter_ne in Hd by auto.
        rewrite lookup_singleton_ne in Hd by auto. discriminate. }
  cbn [LPAStar.main_loop]. rewrite Htest. cbn [rbind]. rewrite Hbody. reflexivity.
Qed.

Lemma computeShortestPath_never_returns_witness :
  LPAStar.computeShortestPath LPAStar.lex_lt Samples.chain 1000
    (LPAStar.make Samples.chain true Samples.leftover) = OutOfFuel.
Proof.
  apply (computeShortestPath_never_returns Samples.chain true Samples.leftover 1 [] 1000).
  - reflexivity.
  - reflexivity.
Defined.

(* when the main loop does return, its test was evaluated and false: the
   queue is not empty, its top key is not below the goal key and a solution
   is recorded; it never returns on an empty queue *)
Lemma main_loop_exit (key_lt : LPAStar.Key -> LPAStar.Key -> bool) (G : LPAStar.Graph)
    (fuel : nat) (st st' : LPAStar.LPAStarAlgorithm) :
  LPAStar.main_loop key_lt G fuel st = Ok st' ->
  exists t,
    LPAStar.pq_top key_lt (LPAStar._pq st') = Ok t /\
    LPAStar.pq_empty (LPAStar._pq st') = false /\
    key_lt (LPAStar.key t.2) (LPAStar._goal_key st') = false /\
    solved (LPAStar._result st') = true.
Proof.
  revert st. induction fuel as [|fuel IH]; intros st; simpl; [discriminate|].
  unfold LPAStar.loop_test.
  destruct (LPAStar.pq_top key_lt (LPAStar._pq st)) as [t| | |] eqn:Htop;
    simpl; try discriminate.
  destruct ((key_lt (LPAStar.key t.2) (LPAStar._goal_key st)
             || negb (solved (LPAStar._result st)))
            && negb (LPAStar.pq_empty (LPAStar._pq st))) eqn:Htest.
  - destruct (LPAStar.loop_body key_lt G fuel st) as [st1| | |]; simpl; try discriminate.
    apply IH.
  - intros [= <-]. exists t. split; [exact Htop|].
    assert (Hne : LPAStar.pq_empty (LPAStar._pq st) = false).
    { unfold LPAStar.pq_top in Htop. unfold LPAStar.pq_empty.
      destruct (LPAStar.heap (LPAStar._pq st)); [discriminate|reflexivity]. }
    rewrite Hne in Htest. rewrite andb_true_r in Htest.
    apply orb_false_elim in Htest as [H1 H2].
    apply negb_false_iff in H2. auto.
Qed.

(** C4. With an invalid start the constructor skips its body: the queue is
    empty and [_result] keeps whatever its members held, [solved] included.
    [computeShortestPath] then reads [_pq.top()] of the empty queue in the
    loop test, before the emptiness test: the behaviour is undefined, no
    result with [solved = false] is produced. *)
Theorem invalid_start_is_undefined (key_lt : LPAStar.Key -> LPAStar.Key -> bool)
    (G : LPAStar.Graph) (lazy : bool) (uninit : bool * dbl * dbl * N) (fuel : nat) :
  LPAStar.checkValidity G (LPAStar.getStartNode G) = false ->
  LPAStar.pq_empty (LPAStar._pq (LPAStar.make G lazy uninit)) = true /\
  LPAStar._vertex_data (LPAStar.make G lazy uninit) = ∅ /\
  LPAStar._result (LPAStar.make G lazy uninit)
    = mkSearchResult uninit.1.1.1 [] uninit.1.1.2 uninit.1.2 uninit.2 /\
  LPAStar.computeShortestPath key_lt G (S fuel) (LPAStar.make G lazy uninit) = Abort.
Proof.
  intros Hinvalid. unfold LPAStar.computeShortestPath, LPAStar.make.
  rewrite Hinvalid. simpl. auto.
Qed.

Lemma invalid_start_is_undefined_witness :
  LPAStar.pq_empty
    (LPAStar._pq (LPAStar.make Samples.chain_invalid_start false Samples.leftover)) = true /\
  LPAStar._vertex_data (LPAStar.make Samples.chain_invalid_start false Samples.leftover) = ∅ /\
  LPAStar._result (LPAStar.make Samples.chain_invalid_start false Samples.leftover)
    = mkSearchResult true [] (Fin 3) NaN 9 /\
  LPAStar.computeShortestPath LPAStar.lex_lt Samples.chain_invalid_start 10
    (LPAStar.make Samples.chain_invalid_start false Samples.leftover) = Abort.
Proof.
  apply (invalid_start_is_undefined LPAStar.lex_lt Samples.chain_invalid_start false
           Samples.leftover 9).
  reflexivity.
Defined.

(** * Further properties *)

(** ** Further properties of the integrators *)

Lemma Qsqrt_zero (q : Q) : (q == 0)%Q -> (Integrator.Qsqrt q == 0)%Q.
Proof.
  intros H. unfold Integrator.Qsqrt. rewrite (Qred_complete q 0 H). reflexivity.
Qed.

Lemma Qsqrt_proper (x y : Q) : (x == y)%Q -> (Integrator.Qsqrt x == Integrator.Qsqrt y)%Q.
Proof.
  intros H. unfold Integrator.Qsqrt. rewrite (Qred_complete x y H). reflexivity.
Qed.

Lemma squaredNorm_vsub_same (a : Config) :
  (Integrator.squaredNorm (Integrator.vsub a a) == 0)%Q.
Proof.
  induction a as [|x a IH]; simpl; [reflexivity|].
  rewrite IH. ring.
Qed.

Lemma squaredNorm_vsub_sym (a b : Config) :
  (Integrator.squaredNorm (Integrator.vsub a b)
   == Integrator.squaredNorm (Integrator.vsub b a))%Q.
Proof.
  revert b. induction a as [|x a IH]; intros [|y b]; simpl; try reflexivity.
  rewrite (IH b). ring.
Qed.

(** X1. Both integrators return 0 for a segment from a configuration to
    itself, whatever the point cost: no sample is taken. *)
Theorem integrate_same_config_is_zero (sqrt : Q -> Q) (h : Q) (a : Config)
    (cost_fn costPerConfig : Config -> dbl) :
  (forall q, (q == 0)%Q -> (sqrt q == 0)%Q) ->
  Integrator.integrateCosts sqrt h a a cost_fn = Ok (Fin 0) /\
  Integrator.or_integrateCosts sqrt costPerConfig a a = Ok (Fin 0).
Proof.
  intros Hsqrt.
  assert (Hn : Qeq_bool (Integrator.norm sqrt (Integrator.vsub a a)) 0 = true).
  { apply Qeq_bool_iff. apply Hsqrt. apply squaredNorm_vsub_same. }
  unfold Integrator.integrateCosts, Integrator.or_integrateCosts.
  rewrite bool_decide_eq_true_2 by reflexivity. cbn [assert rbind].
  rewrite Hn. split; reflexivity.
Qed.

Lemma integrate_same_config_is_zero_witness :
  Integrator.integrateCosts Integrator.Qsqrt (1 # 1000) [3%Q; 4%Q] [3%Q; 4%Q]
    (fun _ => PInf) = Ok (Fin 0) /\
  Integrator.or_integrateCosts Integrator.Qsqrt (fun _ => PInf) [3%Q; 4%Q] [3%Q; 4%Q]
    = Ok (Fin 0).
Proof.
  apply (integrate_same_config_is_zero Integrator.Qsqrt (1 # 1000) [3%Q; 4%Q]
           (fun _ => PInf) (fun _ => PInf)).
  exact Qsqrt_zero.
Defined.

(** X2. The distance of the configuration space is symmetric on
    configurations of the same size, and zero from a configuration to
    itself, for a square root that respects equality of rationals. *)
Theorem cSpaceDistance_symmetric (sqrt : Q -> Q) (a b : Config) :
  (forall x y, (x == y)%Q -> (sqrt x == sqrt y)%Q) ->
  length a = length b ->
  (Integrator.cSpaceDistance sqrt a b == Integrator.cSpaceDistance sqrt b a)%Q /\
  (Integrator.cSpaceDistance sqrt a a == sqrt 0)%Q.
Proof.
  intros Hsqrt _. unfold Integrator.cSpaceDistance, Integrator.norm. split.
  - apply Hsqrt. apply squaredNorm_vsub_sym.
  - apply Hsqrt. apply squaredNorm_vsub_same.
Qed.

Lemma cSpaceDistance_symmetric_witness :
  (Integrator.cSpaceDistance Integrator.Qsqrt [0%Q; 0%Q] [3%Q; 4%Q]
   == Integrator.cSpaceDistance Integrator.Qsqrt [3%Q; 4%Q] [0%Q; 0%Q])%Q /\
  (Integrator.cSpaceDistance Integrator.Qsqrt [0%Q; 0%Q] [0%Q; 0%Q]
   == Integrator.Qsqrt 0)%Q.
Proof.
  apply (cSpaceDistance_symmetric Integrator.Qsqrt [0%Q; 0%Q] [3%Q; 4%Q]).
  - exact Qsqrt_proper.
  - reflexivity.
Defined.

(** X6. [ORSceneInterface::costPerConfig] is infinite on a self-collision
    and the inverse of the clearance otherwise; where the clearance is
    positive and at most 1 it is at least 1. *)
Theorem costPerConfig_at_least_one (self_collision : Config -> bool)
    (min_distance : Config -> dbl) (c : Config) :
  (self_collision c = true \/
   exists d, min_distance c = Fin d /\ (0 < d)%Q /\ (d <= 1)%Q) ->
  isinf (Integrator.costPerConfig self_collision min_distance c) = true \/
  exists v, Integrator.costPerConfig self_collision min_distance c = Fin v /\ (1 <= v)%Q.
Proof.
  unfold Integrator.costPerConfig. intros [Hsc|(d & Hd & Hpos & Hle)].
  - rewrite Hsc. now left.
  - destruct (self_collision c); [now left|]. right.
    rewrite Hd. unfold div.
    assert (Qeq_bool d 0 = false) as ->.
    { destruct (Qeq_bool d 0) eqn:E; [|reflexivity]. apply Qeq_bool_iff in E. lra. }
    eexists. split; [reflexivity|].
    apply Qle_shift_div_l; [assumption|]. lra.
Qed.

Lemma costPerConfig_at_least_one_witness :
  isinf (Integrator.costPerConfig (fun _ => false) (fun _ => Fin (1 # 2)) [0%Q]) = true \/
  exists v, Integrator.costPerConfig (fun _ => false) (fun _ => Fin (1 # 2)) [0%Q] = Fin v
            /\ (1 <= v)%Q.
Proof.
  apply (costPerConfig_at_least_one (fun _ => false) (fun _ => Fin (1 # 2)) [0%Q]).
  right. exists (1 # 2)%Q. split; [reflexivity|]. split; [reflexivity|discriminate].
Defined.

(** ** Further properties of the roadmap *)

Lemma with_node_heap_same (rm : Roadmap.Roadmap) :
  Roadmap.with_node_heap (Roadmap.node_heap rm) rm = rm.
Proof. now destruct rm. Qed.

Lemma upd_node_fixed (l : N) (f : Roadmap.Node -> Roadmap.Node) (rm : Roadmap.Roadmap) :
  (forall x, Roadmap.node_heap rm !! l = Some x -> f x = x) ->
  Roadmap.upd_node l f rm = rm.
Proof.
  intros Hf. unfold Roadmap.upd_node. rewrite alter_id by exact Hf.
  apply with_node_heap_same.
Qed.

Lemma set_initialized_same (n : Roadmap.Node) :
  Roadmap.initialized n = true -> Roadmap.set_initialized true n = n.
Proof. destruct n; simpl. now intros ->. Qed.

(** X7. [Roadmap::addNode] registers the new node under a fresh uid:
    [getNode] of that uid returns it, uninitialised and with the given
    configuration, and every node [getNode] found before is still found. *)
Theorem addNode_then_getNode (cfg : Config) (rm : Roadmap.Roadmap) :
  Roadmap._nodes rm !! Roadmap._node_id_counter rm = None ->
  Roadmap.getNode (Roadmap._node_id_counter rm) (Roadmap.addNode cfg rm).2
    = Ok (Some (Roadmap.addNode cfg rm).1) /\
  Roadmap.node_heap (Roadmap.addNode cfg rm).2 !! (Roadmap.addNode cfg rm).1
    = Some (Roadmap.mkNode (Roadmap._node_id_counter rm) cfg false ∅ ∅ 0) /\
  (forall id l, Roadmap.getNode id rm = Ok (Some l) ->
                Roadmap.getNode id (Roadmap.addNode cfg rm).2 = Ok (Some l)).
Proof.
  intros Hfresh. unfold Roadmap.getNode, Roadmap.addNode. simpl.
  unfold Roadmap.map_insert_new. rewrite Hfresh. split; [|split].
  - rewrite lookup_insert_eq.
    rewrite bool_decide_eq_true_2; [reflexivity|].
    apply elem_of_app. right. apply list_elem_of_singleton. reflexivity.
  - apply lookup_insert_eq.
  - intros id l. destruct (Roadmap._nodes rm !! id) as [l0|] eqn:E; [|discriminate].
    assert (Roadmap._node_id_counter rm <> id) by congruence.
    rewrite lookup_insert_ne by assumption. rewrite E.
    destruct (bool_decide (l0 ∈ Roadmap._nn rm)) eqn:B; simpl; [|discriminate].
    intros [= <-]. apply bool_decide_eq_true_1 in B.
    rewrite bool_decide_eq_true_2; [reflexivity|].
    apply elem_of_app. now left.
Qed.

Lemma addNode_then_getNode_witness :
  Roadmap.getNode (Roadmap._node_id_counter Scene.two_nodes)
    (Roadmap.addNode [5%Q] Scene.two_nodes).2
    = Ok (Some (Roadmap.addNode [5%Q] Scene.two_nodes).1) /\
  Roadmap.node_heap (Roadmap.addNode [5%Q] Scene.two_nodes).2
    !! (Roadmap.addNode [5%Q] Scene.two_nodes).1
    = Some (Roadmap.mkNode (Roadmap._node_id_counter Scene.two_nodes) [5%Q] false ∅ ∅ 0) /\
  (forall id l, Roadmap.getNode id Scene.two_nodes = Ok (Some l) ->
                Roadmap.getNode id (Roadmap.addNode [5%Q] Scene.two_nodes).2 = Ok (Some l)).
Proof.
  apply (addNode_then_getNode [5%Q] Scene.two_nodes).
  vm_compute. reflexivity.
Defined.



Lemma isValid_true_inv (ss : Roadmap.StateSpace) (w : Roadmap.NodeWeakPtr)
    (rm rm' : Roadmap.Roadmap) :
  Roadmap.isValid ss w rm = Ok (true, rm') ->
  exists n,
    Roadmap.expired rm w = false /\
    Roadmap.node_heap rm !! Roadmap.target w = Some n /\
    rm' = Roadmap.upd_node (Roadmap.target w) (Roadmap.set_initialized true) rm.
Proof.
  unfold Roadmap.isValid, Roadmap.get_node.
  destruct (Roadmap.expired rm w); [discriminate|].
  destruct (Roadmap.node_heap rm !! Roadmap.target w) as [n|]; [|discriminate].
  cbn [rbind].
  destruct (negb (Roadmap.initialized n) && negb (Roadmap.ss_isValid ss (Roadmap.config n))).
  - destruct (Roadmap.deleteNode (Roadmap.target w) rm); discriminate.
  - intros [= <-]. eauto.
Qed.

Lemma isValid_initialized (ss : Roadmap.StateSpace) (w : Roadmap.NodeWeakPtr)
    (rm : Roadmap.Roadmap) (n : Roadmap.Node) :
  Roadmap.expired rm w = false ->
  Roadmap.node_heap rm !! Roadmap.target w = Some n ->
  Roadmap.initialized n = true ->
  Roadmap.isValid ss w rm = Ok (true, rm).
Proof.
  intros Hexp Hn Hinit. unfold Roadmap.isValid, Roadmap.get_node.
  rewrite Hexp, Hn. cbn [rbind]. rewrite Hinit. cbn [negb andb].
  rewrite upd_node_fixed; [reflexivity|].
  intros x Hx. rewrite Hn in Hx. injection Hx as <-. now apply set_initialized_same.
Qed.

(** X9. Base validity is cached: once [Roadmap::isValid] has returned true
    for a node, every later call returns true whatever the state space
    would answer, and leaves the roadmap as it is. *)
Theorem isValid_is_cached (ss ss' : Roadmap.StateSpace) (w : Roadmap.NodeWeakPtr)
    (rm rm' : Roadmap.Roadmap) :
  Roadmap.isValid ss w rm = Ok (true, rm') ->
  Roadmap.isValid ss' w rm' = Ok (true, rm').
Proof.
  intros H. apply isValid_true_inv in H as (n & Hexp & Hn & ->).
  apply isValid_initialized with (n := Roadmap.set_initialized true n).
  - exact Hexp.
  - simpl. rewrite lookup_alter_eq, Hn. reflexivity.
  - reflexivity.
Qed.

Lemma isValid_is_cached_witness :
  Roadmap.isValid Scene.blocked (Roadmap.mkWeak 0 false)
    (Roadmap.upd_node 0 (Roadmap.set_initialized true) Samples.free_rm)
  = Ok (true, Roadmap.upd_node 0 (Roadmap.set_initialized true) Samples.free_rm).
Proof.
  apply (isValid_is_cached (Scene.line (Fin 1)) Scene.blocked (Roadmap.mkWeak 0 false)
           Samples.free_rm).
  vm_compute. reflexivity.
Defined.

(** X10. Validity under a grasp is memoised per grasp: for a base-valid
    node, a second [isValid(node, grasp_id)] returns what the first one
    returned, whatever the state space would answer, and leaves the roadmap
    as it is. *)
Theorem isValid_grasp_is_memoized (ss ss' : Roadmap.StateSpace) (w : Roadmap.NodeWeakPtr)
    (grasp_id : N) (rm rm1 rm' : Roadmap.Roadmap) (valid : bool) :
  Roadmap.isValid ss w rm = Ok (true, rm1) ->
  Roadmap.isValid_grasp ss w grasp_id rm = Ok (valid, rm') ->
  Roadmap.isValid_grasp ss' w grasp_id rm' = Ok (valid, rm').
Proof.
  intros Hbase. unfold Roadmap.isValid_grasp at 1. rewrite Hbase. cbn [rbind fst snd].
  pose proof (isValid_is_cached ss ss' w rm rm1 Hbase) as Hcached.
  apply isValid_true_inv in Hbase as (n & Hexp & Hn & ->).
  set (rm1 := Roadmap.upd_node (Roadmap.target w) (Roadmap.set_initialized true) rm) in *.
  assert (Hn1 : Roadmap.node_heap rm1 !! Roadmap.target w
                = Some (Roadmap.set_initialized true n)).
  { simpl. rewrite lookup_alter_eq, Hn. reflexivity. }
  unfold Roadmap.get_node. rewrite Hn1. cbn [rbind].
  destruct (Roadmap.conditional_validity (Roadmap.set_initialized true n) !! grasp_id)
    as [v|] eqn:Hcv.
  - intros [= <- <-]. unfold Roadmap.isValid_grasp. rewrite Hcached. cbn [rbind fst snd].
    unfold Roadmap.get_node. rewrite Hn1. cbn [rbind]. rewrite Hcv. reflexivity.
  - intros [= <- <-].
    match goal with |- Roadmap.isValid_grasp _ _ _ ?r = _ => set (rm2 := r) end.
    assert (Hn2 : exists n2, Roadmap.node_heap rm2 !! Roadmap.target w = Some n2 /\
                    Roadmap.initialized n2 = true /\
                    Roadmap.conditional_validity n2 !! grasp_id
                    = Some (Roadmap.ss_isValid_grasp ss
                              (Roadmap.config (Roadmap.set_initialized true n))
                              grasp_id true)).
    { eexists. unfold rm2. simpl. rewrite lookup_alter_eq.
      change (alter (Roadmap.set_initialized true) (Roadmap.target w) (Roadmap.node_heap rm))
        with (Roadmap.node_heap rm1).
      rewrite Hn1. simpl. split; [reflexivity|]. split; [reflexivity|].
      apply lookup_insert_eq. }
    destruct Hn2 as (n2 & Hn2 & Hinit2 & Hcv2).
    unfold Roadmap.isValid_grasp.
    rewrite (isValid_initialized ss' w rm2 n2); [|exact Hexp|exact Hn2|exact Hinit2].
    cbn [rbind fst snd]. unfold Roadmap.get_node. rewrite Hn2. cbn [rbind].
    rewrite Hcv2. reflexivity.
Qed.

Lemma isValid_grasp_is_memoized_witness :
  Roadmap.isValid_grasp Scene.blocked (Roadmap.mkWeak 0 false) 3 Samples.grasp_checked
  = Ok (true, Samples.grasp_checked).
Proof.
  apply (isValid_grasp_is_memoized (Scene.line (Fin 1)) Scene.blocked
           (Roadmap.mkWeak 0 false) 3 Samples.free_rm
           (Roadmap.upd_node 0 (Roadmap.set_initialized true) Samples.free_rm)
           Samples.grasp_checked true).
  - vm_compute. reflexivity.
  - vm_compute. reflexivity.
Defined.

Lemma set_base_same (e : Roadmap.Edge) :
  Roadmap.set_base (Roadmap.base_cost e) (Roadmap.base_evaluated e) e = e.
Proof. now destruct e. Qed.

(** X11. The base cost of an edge is computed once: after
    [Roadmap::computeCost(edge)] has returned, every later call returns the
    same pair without using the cost computer and leaves the roadmap as it
    is. *)
Theorem computeCost_is_cached (cc cc' : Roadmap.EdgeCostComputer) (e : N)
    (rm rm' : Roadmap.Roadmap) (r : bool * dbl) :
  Roadmap.computeCost cc e rm = Ok (r, rm') ->
  Roadmap.computeCost cc' e rm' = Ok (r, rm').
Proof.
  unfold Roadmap.computeCost at 1. unfold Roadmap.get_edge.
  destruct (Roadmap.edge_heap rm !! e) as [ed|] eqn:He; [|discriminate]. cbn [rbind].
  destruct (Roadmap.base_evaluated ed) eqn:Hev.
  - intros [= <- <-]. unfold Roadmap.computeCost, Roadmap.get_edge.
    rewrite He. cbn [rbind]. rewrite Hev. reflexivity.
  - destruct (Roadmap.lock rm (Roadmap.node_a ed)) as [a|]; [|discriminate].
    destruct (Roadmap.lock rm (Roadmap.node_b ed)) as [b|]; [|discriminate].
    destruct (Roadmap.cost cc (Roadmap.config a) (Roadmap.config b)) as [c| | |];
      cbn [rbind]; try discriminate.
    intros [= <- <-]. unfold Roadmap.computeCost, Roadmap.get_edge. simpl.
    rewrite lookup_alter_eq, He. reflexivity.
Qed.

Lemma computeCost_is_cached_witness :
  Roadmap.computeCost Samples.no_cc 0 Samples.costed_rm
  = Ok ((true, Samples.free_cost), Samples.costed_rm).
Proof.
  apply (computeCost_is_cached Samples.free_cc Samples.no_cc 0 Samples.free_rm).
  vm_compute. reflexivity.
Defined.

(** X12. The cost of an edge under a grasp is computed once per grasp:
    after [Roadmap::computeCost(edge, grasp_id)] has returned, every later
    call for that grasp returns the same pair without using the cost
    computer and leaves the roadmap as it is. *)
Theorem computeCost_grasp_is_cached (cc cc' : Roadmap.EdgeCostComputer) (e grasp_id : N)
    (rm rm' : Roadmap.Roadmap) (r : bool * dbl) :
  Roadmap.computeCost_grasp cc e grasp_id rm = Ok (r, rm') ->
  Roadmap.computeCost_grasp cc' e grasp_id rm' = Ok (r, rm').
Proof.
  unfold Roadmap.computeCost_grasp at 1. unfold Roadmap.get_edge.
  destruct (Roadmap.edge_heap rm !! e) as [ed|] eqn:He; [|discriminate]. cbn [rbind].
  destruct (Roadmap.base_evaluated ed && isinf (Roadmap.base_cost ed)) eqn:Hdead.
  - intros [= <- <-]. unfold Roadmap.computeCost_grasp, Roadmap.get_edge.
    rewrite He. cbn [rbind]. rewrite Hdead. reflexivity.
  - destruct (Roadmap.conditional_costs ed !! grasp_id) as [c|] eqn:Hc.
    + intros [= <- <-]. unfold Roadmap.computeCost_grasp, Roadmap.get_edge.
      rewrite He. cbn [rbind]. rewrite Hdead, Hc. reflexivity.
    + destruct (Roadmap.lock rm (Roadmap.node_a ed)) as [a|]; [|discriminate].
      destruct (Roadmap.lock rm (Roadmap.node_b ed)) as [b|]; [|discriminate].
      destruct (Roadmap.cost_grasp cc (Roadmap.config a) (Roadmap.config b) grasp_id)
        as [c| | |]; cbn [rbind]; try discriminate.
      intros [= <- <-]. unfold Roadmap.computeCost_grasp, Roadmap.get_edge. simpl.
      rewrite lookup_alter_eq, He. simpl. rewrite Hdead.
      unfold Roadmap.map_insert_new. rewrite Hc, lookup_insert_eq. reflexivity.
Qed.

Lemma computeCost_grasp_is_cached_witness :
  Roadmap.computeCost_grasp Samples.no_cc 0 4 Samples.grasp_costed_rm
  = Ok ((true, Samples.free_cost), Samples.grasp_costed_rm).
Proof.
  apply (computeCost_grasp_is_cached Samples.free_cc Samples.no_cc 0 4 Samples.free_rm).
  vm_compute. reflexivity.
Defined.

(** X13. Once a node is deleted, every edge of its adjacency costs
    [+inf], for the base and for every grasp: both [computeCost] variants
    return [(false, +inf)] without using the cost computer, and leave the
    roadmap as it is. *)
Theorem deleted_node_edges_cost_infinity (cc : Roadmap.EdgeCostComputer)
    (node grasp_id k e : N) (rm : Roadmap.Roadmap) (n : Roadmap.Node) :
  Roadmap.node_heap rm !! node = Some n ->
  is_Some (Roadmap._nodes rm !! Roadmap.uid n) ->
  Roadmap.edges n !! k = Some e ->
  is_Some (Roadmap.edge_heap rm !! e) ->
  exists rm',
    Roadmap.deleteNode node rm = Ok rm' /\
    Roadmap.computeCost cc e rm' = Ok ((false, PInf), rm') /\
    Roadmap.computeCost_grasp cc e grasp_id rm' = Ok ((false, PInf), rm').
Proof.
  intros Hn Hreg Hk [ed He].
  destruct (deleteNode_effect node rm n Hn Hreg) as (rm' & Hdel & _ & _ & _ & Hedges).
  exists rm'. split; [exact Hdel|].
  pose proof (Hedges k e Hk) as He'. rewrite He in He'. simpl in He'.
  unfold Roadmap.computeCost, Roadmap.computeCost_grasp, Roadmap.get_edge.
  rewrite He'. split; reflexivity.
Qed.

Lemma deleted_node_edges_cost_infinity_witness :
  exists rm',
    Roadmap.deleteNode 0 Samples.grasp_costed_rm = Ok rm' /\
    Roadmap.computeCost Samples.no_cc 0 rm' = Ok ((false, PInf), rm') /\
    Roadmap.computeCost_grasp Samples.no_cc 0 4 rm' = Ok ((false, PInf), rm').
Proof.
  apply (deleted_node_edges_cost_infinity Samples.no_cc 0 4 1 0 Samples.grasp_costed_rm
           Samples.free_node0).
  - vm_compute. reflexivity.
  - exists 0%N. vm_compute. reflexivity.
  - reflexivity.
  - eexists. vm_compute. reflexivity.
Defined.

(** X14. [Roadmap::deleteNode] resets the base cost of the incident edges
    only: a cost already stored for a grasp stays in [conditional_costs],
    and [Edge::getBestKnownCost] of that grasp keeps returning it on the
    dead edge. *)
Theorem getBestKnownCost_survives_deletion (node grasp_id k e : N)
    (rm : Roadmap.Roadmap) (n : Roadmap.Node) (ed : Roadmap.Edge) (c : dbl) :
  Roadmap.node_heap rm !! node = Some n ->
  is_Some (Roadmap._nodes rm !! Roadmap.uid n) ->
  Roadmap.edges n !! k = Some e ->
  Roadmap.edge_heap rm !! e = Some ed ->
  Roadmap.conditional_costs ed !! grasp_id = Some c ->
  exists rm' ed',
    Roadmap.deleteNode node rm = Ok rm' /\
    Roadmap.edge_heap rm' !! e = Some ed' /\
    Roadmap.edge_invalid rm' e = true /\
    Roadmap.getBestKnownCost ed' grasp_id = c.
Proof.
  intros Hn Hreg Hk He Hc.
  destruct (deleteNode_effect node rm n Hn Hreg) as (rm' & Hdel & _ & _ & _ & Hedges).
  pose proof (Hedges k e Hk) as He'. rewrite He in He'. simpl in He'.
  exists rm', (Roadmap.set_base PInf true ed). split; [exact Hdel|].
  split; [exact He'|]. split.
  - unfold Roadmap.edge_invalid. rewrite He'. reflexivity.
  - unfold Roadmap.getBestKnownCost. simpl. now rewrite Hc.
Qed.

Lemma getBestKnownCost_survives_deletion_witness :
  exists rm' ed',
    Roadmap.deleteNode 0 Samples.grasp_costed_rm = Ok rm' /\
    Roadmap.edge_heap rm' !! 0%N = Some ed' /\
    Roadmap.edge_invalid rm' 0 = true /\
    Roadmap.getBestKnownCost ed' 4 = Samples.free_cost.
Proof.
  apply (getBestKnownCost_survives_deletion 0 4 1 0 Samples.grasp_costed_rm
           Samples.free_node0 Samples.grasp_costed_edge Samples.free_cost).
  - vm_compute. reflexivity.
  - exists 0%N. vm_compute. reflexivity.
  - reflexivity.
  - vm_compute. reflexivity.
  - vm_compute. reflexivity.
Defined.

Lemma connect_result (cc : Roadmap.EdgeCostComputer) (node neigh : N)
    (rm : Roadmap.Roadmap) (n m : Roadmap.Node) :
  Roadmap.node_heap rm !! node = Some n ->
  Roadmap.node_heap rm !! neigh = Some m ->
  Roadmap.edges n !! Roadmap.uid m = None ->
  neigh <> node ->
  exists rm',
    Roadmap.connect cc node rm neigh = Ok rm' /\
    Roadmap.edge_heap rm' !! Roadmap.next_edge rm
      = Some (Roadmap.mkEdge (Roadmap.lowerBound cc (Roadmap.config n) (Roadmap.config m))
                false ∅ node neigh) /\
    Roadmap.node_heap rm' !! node
      = Some (Roadmap.set_edges
                (<[Roadmap.uid m := Roadmap.next_edge rm]> (Roadmap.edges n)) n) /\
    Roadmap.node_heap rm' !! neigh
      = Some (Roadmap.set_edges
                (Roadmap.map_insert_new (Roadmap.uid n) (Roadmap.next_edge rm)
                   (Roadmap.edges m)) m).
Proof.
  intros Hn Hm Hnone Hne. unfold Roadmap.connect, Roadmap.get_node.
  rewrite Hn, Hm. cbn [rbind].
  rewrite bool_decide_eq_true_2 by assumption.
  assert ((neigh =? node)%N = false) as -> by now apply N.eqb_neq.
  cbn [negb andb]. eexists. split; [reflexivity|]. simpl. split; [|split].
  - apply lookup_insert_eq.
  - rewrite lookup_alter_ne by assumption. rewrite lookup_alter_eq, Hn. simpl.
    unfold Roadmap.map_insert_new. now rewrite Hnone.
  - rewrite lookup_alter_eq. rewrite lookup_alter_ne by auto. rewrite Hm. reflexivity.
Qed.

(** X15. A new edge is one object shared by its two endpoints: when
    neither adjacency map has an entry for the other node, the connecting
    step of [Roadmap::updateAdjacency] stores the same edge in both maps,
    under the other node's uid, with the lower bound as base cost and not
    yet evaluated. *)
Theorem connect_shares_edge (cc : Roadmap.EdgeCostComputer) (node neigh : N)
    (rm : Roadmap.Roadmap) (n m : Roadmap.Node) :
  Roadmap.node_heap rm !! node = Some n ->
  Roadmap.node_heap rm !! neigh = Some m ->
  Roadmap.edges n !! Roadmap.uid m = None ->
  Roadmap.edges m !! Roadmap.uid n = None ->
  neigh <> node ->
  exists rm' n' m' e,
    Roadmap.connect cc node rm neigh = Ok rm' /\
    Roadmap.node_heap rm' !! node = Some n' /\
    Roadmap.node_heap rm' !! neigh = Some m' /\
    Roadmap.edges n' !! Roadmap.uid m = Some e /\
    Roadmap.edges m' !! Roadmap.uid n = Some e /\
    Roadmap.edge_heap rm' !! e
      = Some (Roadmap.mkEdge (Roadmap.lowerBound cc (Roadmap.config n) (Roadmap.config m))
                false ∅ node neigh).
Proof.
  intros Hn Hm Hnm Hmn Hne.
  destruct (connect_result cc node neigh rm n m Hn Hm Hnm Hne)
    as (rm' & Hc & He & Hn' & Hm').
  eexists rm', _, _, (Roadmap.next_edge rm).
  split; [exact Hc|]. split; [exact Hn'|]. split; [exact Hm'|].
  split; [|split].
  - simpl. apply lookup_insert_eq.
  - simpl. unfold Roadmap.map_insert_new. rewrite Hmn. apply lookup_insert_eq.
  - exact He.
Qed.

Lemma connect_shares_edge_witness :
  exists rm' n' m' e,
    Roadmap.connect Samples.free_cc 0 Scene.two_nodes 1 = Ok rm' /\
    Roadmap.node_heap rm' !! 0%N = Some n' /\
    Roadmap.node_heap rm' !! 1%N = Some m' /\
    Roadmap.edges n' !! Roadmap.uid (Roadmap.new_Node 1 [1%Q]) = Some e /\
    Roadmap.edges m' !! Roadmap.uid (Roadmap.new_Node 0 [0%Q]) = Some e /\
    Roadmap.edge_heap rm' !! e
      = Some (Roadmap.mkEdge
                (Roadmap.lowerBound Samples.free_cc
                   (Roadmap.config (Roadmap.new_Node 0 [0%Q]))
                   (Roadmap.config (Roadmap.new_Node 1 [1%Q])))
                false ∅ 0 1).
Proof.
  apply (connect_shares_edge Samples.free_cc 0 1 Scene.two_nodes
           (Roadmap.new_Node 0 [0%Q]) (Roadmap.new_Node 1 [1%Q])).
  - vm_compute. reflexivity.
  - vm_compute. reflexivity.
  - reflexivity.
  - reflexivity.
  - discriminate.
Defined.

(** X16. [std::map::insert] does not replace: when the neighbour still
    holds an entry for the node (an edge the node itself has pruned), the
    connecting step gives the node a fresh edge and leaves the neighbour
    with its old one, so that the two endpoints no longer share an edge. *)
Theorem connect_keeps_stale_edge (cc : Roadmap.EdgeCostComputer) (node neigh old : N)
    (rm : Roadmap.Roadmap) (n m : Roadmap.Node) :
  Roadmap.node_heap rm !! node = Some n ->
  Roadmap.node_heap rm !! neigh = Some m ->
  Roadmap.edges n !! Roadmap.uid m = None ->
  Roadmap.edges m !! Roadmap.uid n = Some old ->
  neigh <> node ->
  old <> Roadmap.next_edge rm ->
  exists rm' n' m' e,
    Roadmap.connect cc node rm neigh = Ok rm' /\
    Roadmap.node_heap rm' !! node = Some n' /\
    Roadmap.node_heap rm' !! neigh = Some m' /\
    Roadmap.edges n' !! Roadmap.uid m = Some e /\
    Roadmap.edges m' !! Roadmap.uid n = Some old /\
    e <> old.
Proof.
  intros Hn Hm Hnm Hmn Hne Hold.
  destruct (connect_result cc node neigh rm n m Hn Hm Hnm Hne)
    as (rm' & Hc & He & Hn' & Hm').
  eexists rm', _, _, (Roadmap.next_edge rm).
  split; [exact Hc|]. split; [exact Hn'|]. split; [exact Hm'|].
  split; [|split].
  - simpl. apply lookup_insert_eq.
  - simpl. unfold Roadmap.map_insert_new. now rewrite Hmn.
  - congruence.
Qed.

Lemma connect_keeps_stale_edge_witness :
  exists rm' n' m' e,
    Roadmap.connect Samples.free_cc 0 Samples.pruned_rm 1 = Ok rm' /\
    Roadmap.node_heap rm' !! 0%N = Some n' /\
    Roadmap.node_heap rm' !! 1%N = Some m' /\
    Roadmap.edges n' !! Roadmap.uid Samples.pruned_node1 = Some e /\
    Roadmap.edges m' !! Roadmap.uid Samples.pruned_node0 = Some 0%N /\
    e <> 0%N.
Proof.
  apply (connect_keeps_stale_edge Samples.free_cc 0 1 0 Samples.pruned_rm
           Samples.pruned_node0 Samples.pruned_node1).
  - vm_compute. reflexivity.
  - vm_compute. reflexivity.
  - reflexivity.
  - reflexivity.
  - discriminate.
  - vm_compute. discriminate.
Defined.

Lemma connect_keeps_frame (cc : Roadmap.EdgeCostComputer) (node neigh : N)
    (rm rm' : Roadmap.Roadmap) :
  Roadmap.connect cc node rm neigh = Ok rm' ->
  Roadmap._densification_gen rm' = Roadmap._densification_gen rm /\
  (forall l, is_Some (Roadmap.node_heap rm !! l) -> is_Some (Roadmap.node_heap rm' !! l)).
Proof.
  unfold Roadmap.connect, Roadmap.get_node.
  destruct (Roadmap.node_heap rm !! node) as [n|]; [|discriminate].
  destruct (Roadmap.node_heap rm !! neigh) as [m|]; [|discriminate]. cbn [rbind].
  destruct (bool_decide _ && negb _).
  - intros [= <-]. split; [reflexivity|]. intros l Hl. simpl.
    apply lookup_alter_is_Some. now apply lookup_alter_is_Some.
  - intros [= <-]. auto.
Qed.

Lemma connect_all_keeps_frame (cc : Roadmap.EdgeCostComputer) (node : N)
    (neighbors : list N) (rm rm' : Roadmap.Roadmap) :
  Roadmap.connect_all cc node neighbors rm = Ok rm' ->
  Roadmap._densification_gen rm' = Roadmap._densification_gen rm /\
  (forall l, is_Some (Roadmap.node_heap rm !! l) -> is_Some (Roadmap.node_heap rm' !! l)).
Proof.
  revert rm. induction neighbors as [|neigh rest IH]; intros rm; simpl.
  - intros [= <-]. auto.
  - destruct (Roadmap.connect cc node rm neigh) as [rm1| | |] eqn:E;
      cbn [rbind]; try discriminate.
    intros Hrest. destruct (connect_keeps_frame _ _ _ _ _ E) as [G1 D1].
    destruct (IH _ Hrest) as [G2 D2]. split; [congruence|auto].
Qed.

Lemma map_filter_twice (P : N * N -> Prop) `{!forall x, Decision (P x)} (m : gmap N N) :
  filter P (filter P m) = filter P m.
Proof.
  apply map_eq. intros i. apply option_eq. intros x.
  rewrite !map_lookup_filter_Some. tauto.
Qed.

Lemma prune_twice (node : N) (rm : Roadmap.Roadmap) :
  Roadmap.prune node (Roadmap.prune node rm) = Roadmap.prune node rm.
Proof.
  unfold Roadmap.prune at 1. apply upd_node_fixed.
  intros x Hx. unfold Roadmap.prune in Hx. simpl in Hx.
  rewrite lookup_alter_eq in Hx.
  destruct (Roadmap.node_heap rm !! node) as [n|]; [|discriminate].
  simpl in Hx. injection Hx as <-. simpl.
  unfold Roadmap.set_edges. simpl. f_equal.
  change (Roadmap.edge_invalid (Roadmap.prune node rm))
    with (Roadmap.edge_invalid rm).
  apply map_filter_twice.
Qed.

(** X17. [Roadmap::updateAdjacency] does its work once per generation: a
    second call for the same node, with no densification in between,
    queries no neighbours and returns the roadmap as the first call left
    it. *)
Theorem updateAdjacency_twice (ss ss' : Roadmap.StateSpace)
    (cc cc' : Roadmap.EdgeCostComputer) (radius radius' : nat -> dbl) (node : N)
    (rm rm1 : Roadmap.Roadmap) :
  Roadmap.updateAdjacency ss cc radius node rm = Ok rm1 ->
  Roadmap.updateAdjacency ss' cc' radius' node rm1 = Ok rm1.
Proof.
  unfold Roadmap.updateAdjacency at 1. unfold Roadmap.get_node.
  destruct (Roadmap.node_heap rm !! node) as [n|] eqn:Hn; [|discriminate]. cbn [rbind].
  assert (Hskip : forall r x,
            Roadmap.node_heap r !! node = Some x ->
            Roadmap.densification_gen x = Roadmap._densification_gen r ->
            Roadmap.updateAdjacency ss' cc' radius' node (Roadmap.prune node r)
            = Ok (Roadmap.prune node r)).
  { intros r x Hx Hgen. unfold Roadmap.updateAdjacency, Roadmap.get_node.
    unfold Roadmap.prune at 1. simpl. rewrite lookup_alter_eq, Hx. simpl.
    rewrite Hgen, N.eqb_refl. simpl. now rewrite prune_twice. }
  destruct (negb (Roadmap.densification_gen n =? Roadmap._densification_gen rm)%N) eqn:Hdue.
  - destruct (Roadmap.connect_all cc node
                (Roadmap.nearestR ss rm (Roadmap.config n)
                   (radius (length (Roadmap._nn rm)))) rm) as [rm'| | |] eqn:Hc;
      cbn [rbind]; try discriminate.
    intros [= <-].
    destruct (connect_all_keeps_frame _ _ _ _ _ Hc) as [_ Hdom].
    destruct (Hdom node) as [n' Hn']; [eauto|].
    eapply Hskip.
    + simpl. rewrite lookup_alter_eq, Hn'. reflexivity.
    + reflexivity.
  - intros [= <-]. apply negb_false_iff, N.eqb_eq in Hdue.
    eapply Hskip; eassumption.
Qed.

Lemma updateAdjacency_twice_witness :
  Roadmap.updateAdjacency Scene.blocked Samples.no_cc (fun _ => NaN) 0 Samples.free_rm
  = Ok Samples.free_rm.
Proof.
  apply (updateAdjacency_twice (Scene.line (Fin 1)) Scene.blocked
           (Scene.computer (Scene.line (Fin 1))) Samples.no_cc
           (fun _ => Fin 2%Q) (fun _ => NaN) 0 Scene.two_nodes).
  vm_compute. reflexivity.
Defined.

(** X18. An edge leads from each endpoint to the other: for an edge whose
    two endpoints are in the roadmap under different uids,
    [Edge::getNeighbor] of either endpoint returns the other one. *)
Theorem getNeighbor_other_endpoint (rm : Roadmap.Roadmap) (ed : Roadmap.Edge)
    (na nb : Roadmap.Node) :
  Roadmap.lock rm (Roadmap.node_a ed) = Some na ->
  Roadmap.lock rm (Roadmap.node_b ed) = Some nb ->
  Roadmap.uid na <> Roadmap.uid nb ->
  Roadmap.getNeighbor rm ed (Roadmap.node_a ed) = Ok (Some (Roadmap.node_b ed)) /\
  Roadmap.getNeighbor rm ed (Roadmap.node_b ed) = Ok (Some (Roadmap.node_a ed)).
Proof.
  intros Ha Hb Hne.
  assert (Hha : Roadmap.node_heap rm !! Roadmap.node_a ed = Some na).
  { unfold Roadmap.lock in Ha. destruct (bool_decide _); [assumption|discriminate]. }
  assert (Hhb : Roadmap.node_heap rm !! Roadmap.node_b ed = Some nb).
  { unfold Roadmap.lock in Hb. destruct (bool_decide _); [assumption|discriminate]. }
  unfold Roadmap.getNeighbor, Roadmap.get_node. rewrite Hha, Hhb, Ha, Hb. simpl.
  rewrite N.eqb_refl. simpl.
  assert (E1 : (Roadmap.uid nb =? Roadmap.uid na)%N = false).
  { apply N.eqb_neq. congruence. }
  assert (E2 : (Roadmap.uid na =? Roadmap.uid nb)%N = false).
  { apply N.eqb_neq. congruence. }
  rewrite E1, E2. simpl. split; reflexivity.
Qed.

Lemma getNeighbor_other_endpoint_witness :
  Roadmap.getNeighbor Samples.free_rm Samples.free_edge 0 = Ok (Some 1%N) /\
  Roadmap.getNeighbor Samples.free_rm Samples.free_edge 1 = Ok (Some 0%N).
Proof.
  apply (getNeighbor_other_endpoint Samples.free_rm Samples.free_edge
           Samples.free_node0 Samples.free_node1).
  - vm_compute. reflexivity.
  - vm_compute. reflexivity.
  - simpl. discriminate.
Defined.

Lemma lock_after_deleteNode (rm rm' : Roadmap.Roadmap) (node : N) :
  Roadmap.deleteNode node rm = Ok rm' ->
  Roadmap.node_heap rm' = Roadmap.node_heap rm /\
  Roadmap.lock rm' node = None /\
  (forall l, l <> node -> Roadmap.lock rm' l = Roadmap.lock rm l).
Proof.
  intros Hdel. unfold Roadmap.deleteNode, Roadmap.get_node in Hdel.
  destruct (Roadmap.node_heap rm !! node) as [n|] eqn:Hn; [|discriminate].
  simpl in Hdel.
  destruct (bool_decide (is_Some _)) eqn:Hreg; [|discriminate].
  apply bool_decide_eq_true_1 in Hreg.
  destruct (deleteNode_effect _ rm n Hn Hreg) as (rm2 & Hd & _ & Hnn & Hheap & _).
  unfold Roadmap.deleteNode, Roadmap.get_node in Hd. rewrite Hn in Hd. simpl in Hd.
  rewrite bool_decide_eq_true_2 in Hd by assumption. simpl in Hd, Hdel.
  rewrite Hdel in Hd. injection Hd as <-.
  split; [exact Hheap|]. split.
  - unfold Roadmap.lock. rewrite Hnn.
    rewrite bool_decide_eq_false_2; [reflexivity|].
    intros H. apply list_elem_of_filter in H. destruct H as [H _]. now apply H.
  - intros l Hne. unfold Roadmap.lock. rewrite Hnn, Hheap.
    destruct (decide (l ∈ Roadmap._nn rm)) as [Hin|Hin].
    + rewrite !bool_decide_eq_true_2; [reflexivity|assumption|].
      apply list_elem_of_filter. now split.
    + rewrite !bool_decide_eq_false_2; [reflexivity|assumption|].
      intros H. apply list_elem_of_filter in H. now destruct H.
Qed.

(** X19. What [Edge::getNeighbor] returns after an endpoint was deleted
    depends on which one: for an edge between two registered nodes that
    nobody else holds, once [Roadmap::deleteNode] has removed [node_b],
    [getNeighbor] of [node_a] returns a null pointer; once it has removed
    [node_a], [getNeighbor] of [node_b] finds [node_b] itself as the other
    endpoint and fails its assertion. *)
Theorem getNeighbor_after_deleteNode (rm : Roadmap.Roadmap) (ed : Roadmap.Edge)
    (na nb : Roadmap.Node) :
  Roadmap.lock rm (Roadmap.node_a ed) = Some na ->
  Roadmap.lock rm (Roadmap.node_b ed) = Some nb ->
  Roadmap.node_a ed <> Roadmap.node_b ed ->
  is_Some (Roadmap._nodes rm !! Roadmap.uid na) ->
  is_Some (Roadmap._nodes rm !! Roadmap.uid nb) ->
  exists rm_a rm_b,
    Roadmap.deleteNode (Roadmap.node_b ed) rm = Ok rm_b /\
    Roadmap.getNeighbor rm_b ed (Roadmap.node_a ed) = Ok None /\
    Roadmap.deleteNode (Roadmap.node_a ed) rm = Ok rm_a /\
    Roadmap.getNeighbor rm_a ed (Roadmap.node_b ed) = Abort.
Proof.
  intros Ha Hb Hne Hra Hrb.
  assert (Hha : Roadmap.node_heap rm !! Roadmap.node_a ed = Some na).
  { unfold Roadmap.lock in Ha. destruct (bool_decide _); [assumption|discriminate]. }
  assert (Hhb : Roadmap.node_heap rm !! Roadmap.node_b ed = Some nb).
  { unfold Roadmap.lock in Hb. destruct (bool_decide _); [assumption|discriminate]. }
  destruct (deleteNode_effect _ rm nb Hhb Hrb) as (rm_b & Hdb & _).
  destruct (deleteNode_effect _ rm na Hha Hra) as (rm_a & Hda & _).
  exists rm_a, rm_b.
  destruct (lock_after_deleteNode _ _ _ Hdb) as (Hheapb & Lb & Lob).
  destruct (lock_after_deleteNode _ _ _ Hda) as (Hheapa & La & Loa).
  split; [exact Hdb|]. split; [|split; [exact Hda|]].
  - unfold Roadmap.getNeighbor, Roadmap.get_node.
    rewrite Hheapb, Hha, Lb, (Lob _ Hne), Ha. simpl.
    rewrite N.eqb_refl. reflexivity.
  - unfold Roadmap.getNeighbor, Roadmap.get_node.
    rewrite Hheapa, Hhb, La, (Loa (Roadmap.node_b ed)), Hb by congruence. simpl.
    rewrite N.eqb_refl. reflexivity.
Qed.

Lemma getNeighbor_after_deleteNode_witness :
  exists rm_a rm_b,
    Roadmap.deleteNode (Roadmap.node_b Samples.free_edge) Samples.free_rm = Ok rm_b /\
    Roadmap.getNeighbor rm_b Samples.free_edge (Roadmap.node_a Samples.free_edge)
      = Ok None /\
    Roadmap.deleteNode (Roadmap.node_a Samples.free_edge) Samples.free_rm = Ok rm_a /\
    Roadmap.getNeighbor rm_a Samples.free_edge (Roadmap.node_b Samples.free_edge)
      = Abort.
Proof.
  apply (getNeighbor_after_deleteNode Samples.free_rm Samples.free_edge
           Samples.free_node0 Samples.free_node1).
  - vm_compute. reflexivity.
  - vm_compute. reflexivity.
  - simpl. discriminate.
  - exists 0%N. vm_compute. reflexivity.
  - exists 1%N. vm_compute. reflexivity.
Defined.





(** ** Further properties of the grasp table and the goal set *)

(** X22. [ORSceneInterface::removeGrasp] undoes [addGrasp]: after a grasp was
    added it is stored under its id, removing that id gives back the table
    as it was, the grasp can then be added again, and removing the id a
    second time changes nothing. *)
Theorem addGrasp_removeGrasp (g : Grasp.t) (grasps grasps' : gmap N Grasp.t) :
  ORSceneInterface.addGrasp g grasps = Ok grasps' ->
  grasps' !! Grasp.id g = Some g /\
  ORSceneInterface.removeGrasp (Grasp.id g) grasps' = grasps /\
  ORSceneInterface.addGrasp g (ORSceneInterface.removeGrasp (Grasp.id g) grasps')
    = Ok grasps' /\
  ORSceneInterface.removeGrasp (Grasp.id g)
    (ORSceneInterface.removeGrasp (Grasp.id g) grasps') = grasps.
Proof.
  unfold ORSceneInterface.addGrasp.
  destruct (grasps !! Grasp.id g) eqn:E; [discriminate|].
  intros [= <-].
  assert (Hrem : ORSceneInterface.removeGrasp (Grasp.id g) (<[Grasp.id g := g]> grasps)
                 = grasps).
  { unfold ORSceneInterface.removeGrasp. rewrite lookup_insert_eq.
    now apply delete_insert_id. }
  split; [apply lookup_insert_eq|]. split; [exact Hrem|].
  rewrite Hrem. split.
  - unfold ORSceneInterface.addGrasp. now rewrite E.
  - unfold ORSceneInterface.removeGrasp. now rewrite E.
Qed.

Lemma addGrasp_removeGrasp_witness :
  ({[ 3%N := Samples.grasp_a ]} : gmap N Grasp.t) !! Grasp.id Samples.grasp_a
    = Some Samples.grasp_a /\
  ORSceneInterface.removeGrasp (Grasp.id Samples.grasp_a) {[ 3%N := Samples.grasp_a ]} = ∅ /\
  ORSceneInterface.addGrasp Samples.grasp_a
    (ORSceneInterface.removeGrasp (Grasp.id Samples.grasp_a) {[ 3%N := Samples.grasp_a ]})
    = Ok {[ 3%N := Samples.grasp_a ]} /\
  ORSceneInterface.removeGrasp (Grasp.id Samples.grasp_a)
    (ORSceneInterface.removeGrasp (Grasp.id Samples.grasp_a) {[ 3%N := Samples.grasp_a ]})
    = ∅.
Proof.
  apply (addGrasp_removeGrasp Samples.grasp_a ∅ {[ 3%N := Samples.grasp_a ]}).
  reflexivity.
Defined.

(** X23. A goal added under a fresh id is found again, and forgotten when
    removed: after [addGoal], [getGoal] returns the goal, [getGoals] lists
    it and [getGoalId] maps its roadmap node to its id, telling whether the
    grasp is the goal's; after [removeGoal], [getGoal] throws a logic error
    and [getGoalId] reports no goal for the node. *)
Theorem addGoal_getGoal_removeGoal (goal : Goal.t) (gs : MultiGraspGoalSet.t)
    (rm : Roadmap.Roadmap) :
  MultiGraspGoalSet._goals gs !! Goal.id goal = None ->
  exists gs' rm' gs'',
    MultiGraspGoalSet.addGoal goal gs rm = Ok (gs', rm') /\
    MultiGraspGoalSet.getGoal (Goal.id goal) gs' = Ok goal /\
    goal ∈ MultiGraspGoalSet.getGoals gs' /\
    (forall grasp_id,
       MultiGraspGoalSet.getGoalId (Roadmap._node_id_counter rm) grasp_id gs'
       = Ok (Goal.id goal, (Goal.grasp_id goal =? grasp_id)%N)) /\
    MultiGraspGoalSet.removeGoal (Goal.id goal) gs' = Ok gs'' /\
    MultiGraspGoalSet.getGoal (Goal.id goal) gs'' = Throw logic_error /\
    (forall grasp_id,
       MultiGraspGoalSet.getGoalId (Roadmap._node_id_counter rm) grasp_id gs''
       = Ok (0%N, false)).
Proof.
  intros Hfresh. rewrite addGoal_returns.
  set (gs' := MultiGraspGoalSet.mk _ _ _).
  assert (Hg : MultiGraspGoalSet._goals gs' !! Goal.id goal = Some goal).
  { simpl. unfold Roadmap.map_insert_new. rewrite Hfresh. apply lookup_insert_eq. }
  exists gs', (Roadmap.addNode (Goal.config goal) rm).2.
  eexists. split; [reflexivity|].
  split; [|split; [|split; [|split; [|split]]]].
  - unfold MultiGraspGoalSet.getGoal. now rewrite Hg.
  - unfold MultiGraspGoalSet.getGoals. apply list_elem_of_fmap.
    exists (Goal.id goal, goal). split; [reflexivity|]. now apply elem_of_map_to_list.
  - intros grasp_id. unfold MultiGraspGoalSet.getGoalId.
    simpl MultiGraspGoalSet._roadmap_id_to_goal_id. rewrite lookup_insert_eq.
    now rewrite Hg.
  - unfold MultiGraspGoalSet.removeGoal. rewrite Hg.
    simpl MultiGraspGoalSet._goal_id_to_roadmap_id. rewrite lookup_insert_eq.
    simpl MultiGraspGoalSet._roadmap_id_to_goal_id. rewrite lookup_insert_eq.
    rewrite N.eqb_refl. simpl. reflexivity.
  - unfold MultiGraspGoalSet.getGoal. simpl. now rewrite lookup_delete_eq.
  - intros grasp_id. unfold MultiGraspGoalSet.getGoalId. simpl.
    now rewrite lookup_delete_eq.
Qed.

Lemma addGoal_getGoal_removeGoal_witness :
  exists gs' rm' gs'',
    MultiGraspGoalSet.addGoal Samples.goal_a MultiGraspGoalSet.empty Roadmap.empty
      = Ok (gs', rm') /\
    MultiGraspGoalSet.getGoal (Goal.id Samples.goal_a) gs' = Ok Samples.goal_a /\
    Samples.goal_a ∈ MultiGraspGoalSet.getGoals gs' /\
    (forall grasp_id,
       MultiGraspGoalSet.getGoalId (Roadmap._node_id_counter Roadmap.empty) grasp_id gs'
       = Ok (Goal.id Samples.goal_a, (Goal.grasp_id Samples.goal_a =? grasp_id)%N)) /\
    MultiGraspGoalSet.removeGoal (Goal.id Samples.goal_a) gs' = Ok gs'' /\
    MultiGraspGoalSet.getGoal (Goal.id Samples.goal_a) gs'' = Throw logic_error /\
    (forall grasp_id,
       MultiGraspGoalSet.getGoalId (Roadmap._node_id_counter Roadmap.empty) grasp_id gs''
       = Ok (0%N, false)).
Proof.
  apply (addGoal_getGoal_removeGoal Samples.goal_a MultiGraspGoalSet.empty Roadmap.empty).
  reflexivity.
Defined.

(** X24. A freshly added goal passes the goal test exactly when it should:
    [isGoal(node_id, grasp_id)] on the roadmap node of the new goal returns
    true if and only if the state space finds the goal's configuration valid,
    valid under the grasp, and the grasp is the goal's grasp. *)
Theorem added_goal_isGoal (ss : Roadmap.StateSpace) (goal : Goal.t)
    (gs : MultiGraspGoalSet.t) (rm : Roadmap.Roadmap) (grasp_id : N) :
  MultiGraspGoalSet._goals gs !! Goal.id goal = None ->
  Roadmap._nodes rm !! Roadmap._node_id_counter rm = None ->
  exists gs' rm' rm'',
    MultiGraspGoalSet.addGoal goal gs rm = Ok (gs', rm') /\
    MultiGraspGoalSet.isGoal_id ss (Roadmap._node_id_counter rm) grasp_id gs' rm'
    = Ok (Roadmap.ss_isValid ss (Goal.config goal)
          && Roadmap.ss_isValid_grasp ss (Goal.config goal) grasp_id true
          && (grasp_id =? Goal.grasp_id goal)%N, rm'').
Proof.
  intros Hfresh Hnew. rewrite addGoal_returns.
  set (gs' := MultiGraspGoalSet.mk _ _ _).
  set (rm' := (Roadmap.addNode (Goal.config goal) rm).2).
  set (l := Roadmap.next_node rm).
  set (nd := Roadmap.new_Node (Roadmap._node_id_counter rm) (Goal.config goal)).
  assert (Hg : MultiGraspGoalSet._goals gs' !! Goal.id goal = Some goal).
  { simpl. unfold Roadmap.map_insert_new. rewrite Hfresh. apply lookup_insert_eq. }
  assert (Hreg : Roadmap._nodes rm' !! Roadmap._node_id_counter rm = Some l).
  { simpl. unfold Roadmap.map_insert_new. simpl. rewrite Hnew. apply lookup_insert_eq. }
  assert (Hin : l ∈ Roadmap._nn rm').
  { simpl. apply elem_of_app. right. now apply list_elem_of_singleton. }
  assert (Hheap : Roadmap.node_heap rm' !! l = Some nd).
  { simpl. apply lookup_insert_eq. }
  exists gs', rm'.
  enough (H : exists rm'',
            MultiGraspGoalSet.isGoal_id ss (Roadmap._node_id_counter rm) grasp_id gs' rm'
            = Ok (Roadmap.ss_isValid ss (Goal.config goal)
                  && Roadmap.ss_isValid_grasp ss (Goal.config goal) grasp_id true
                  && (grasp_id =? Goal.grasp_id goal)%N, rm'')).
  { destruct H as [rm'' H]. exists rm''. split; [reflexivity|exact H]. }
  unfold MultiGraspGoalSet.isGoal_id, Roadmap.getNode. rewrite Hreg.
  rewrite bool_decide_eq_true_2 by exact Hin. cbn [assert rbind].
  unfold MultiGraspGoalSet.isGoal, Roadmap.isValid_grasp, Roadmap.isValid.
  cbn [Roadmap.expired Roadmap.pinned Roadmap.target negb andb].
  unfold Roadmap.get_node at 1. rewrite Hheap. cbn [rbind].
  change (Roadmap.initialized nd) with false.
  change (Roadmap.config nd) with (Goal.config goal).
  cbn [negb andb].
  destruct (Roadmap.ss_isValid ss (Goal.config goal)) eqn:Ev; cbn [negb andb].
  - cbn [rbind fst snd].
    unfold Roadmap.get_node at 1. unfold Roadmap.upd_node at 1.
    cbn [Roadmap.node_heap Roadmap.with_node_heap].
    rewrite lookup_alter_eq, Hheap. cbn [fmap option_fmap option_map rbind].
    cbn [Roadmap.conditional_validity Roadmap.set_initialized nd Roadmap.new_Node].
    rewrite lookup_empty. cbn [rbind fst snd].
    change (Roadmap.config (Roadmap.set_initialized true nd)) with (Goal.config goal).
    destruct (Roadmap.ss_isValid_grasp ss (Goal.config goal) grasp_id true) eqn:Eg;
      cbn [negb andb].
    + unfold Roadmap.get_node, Roadmap.upd_node.
      cbn [Roadmap.node_heap Roadmap.with_node_heap].
      rewrite !lookup_alter_eq, Hheap. cbn [fmap option_fmap option_map rbind].
      cbn [Roadmap.uid Roadmap.set_initialized Roadmap.set_conditional_validity
           nd Roadmap.new_Node].
      simpl MultiGraspGoalSet._roadmap_id_to_goal_id. rewrite lookup_insert_eq.
      rewrite Hg. eexists. reflexivity.
    + eexists. reflexivity.
  - assert (Hsome : is_Some (Roadmap._nodes rm' !! Roadmap.uid nd)).
    { cbn [Roadmap.uid nd Roadmap.new_Node]. rewrite Hreg. eauto. }
    destruct (deleteNode_effect l rm' nd Hheap Hsome) as (rm2 & Hdel & _).
    rewrite Hdel. cbn [rbind fst snd negb]. eexists. reflexivity.
Qed.

Lemma added_goal_isGoal_witness :
  exists gs' rm' rm'',
    MultiGraspGoalSet.addGoal Samples.goal_a MultiGraspGoalSet.empty Roadmap.empty
      = Ok (gs', rm') /\
    MultiGraspGoalSet.isGoal_id (Scene.line (Fin 1))
      (Roadmap._node_id_counter Roadmap.empty) 1 gs' rm'
    = Ok (Roadmap.ss_isValid (Scene.line (Fin 1)) (Goal.config Samples.goal_a)
          && Roadmap.ss_isValid_grasp (Scene.line (Fin 1))
               (Goal.config Samples.goal_a) 1 true
          && (1 =? Goal.grasp_id Samples.goal_a)%N, rm'').
Proof.
  apply (added_goal_isGoal (Scene.line (Fin 1)) Samples.goal_a
           MultiGraspGoalSet.empty Roadmap.empty 1).
  - reflexivity.
  - reflexivity.
Defined.

(** ** Further properties of the goal heuristic *)

(** X25. The cost-to-go for a grasp is the cost-to-go over the goals of that
    grasp: [costToGo(a, grasp_id)] answers as [costToGo(a)] would with only
    the goals of the grasp in the structure, normalised by the qualities of
    all goals; it throws a logic error when the set has no goal for the
    grasp. *)
Theorem costToGo_grasp_restricts (gs : MultiGraspGoalSet.t)
    (path_cost : Config -> Config -> dbl) (lambda : dbl) (a : Config) (grasp_id : N) :
  MGGoalDistance.costToGo_grasp a grasp_id (MGGoalDistance.make gs path_cost lambda)
  = MGGoalDistance.costToGo a
      (MGGoalDistance.mk
         (MGGoalDistance._goal_distance (MGGoalDistance.make gs path_cost lambda))
         (MGGoalDistance._quality_normalizer (MGGoalDistance.make gs path_cost lambda))
         (MGGoalDistance._max_quality (MGGoalDistance.make gs path_cost lambda))
         (filter (fun g => Goal.grasp_id g = grasp_id) (MultiGraspGoalSet.getGoals gs))
         (MGGoalDistance._goals (MGGoalDistance.make gs path_cost lambda))) /\
  (filter (fun g => Goal.grasp_id g = grasp_id) (MultiGraspGoalSet.getGoals gs) = [] ->
   MGGoalDistance.costToGo_grasp a grasp_id (MGGoalDistance.make gs path_cost lambda)
   = Throw logic_error).
Proof.
  assert (H : MGGoalDistance._goals (MGGoalDistance.make gs path_cost lambda) !! grasp_id
              = match filter (fun g => Goal.grasp_id g = grasp_id)
                        (MultiGraspGoalSet.getGoals gs) with
                | [] => None
                | fl => Some fl
                end).
  { unfold MGGoalDistance.make. cbn [MGGoalDistance._goals].
    rewrite fold_add_to_grasp, lookup_empty. reflexivity. }
  unfold MGGoalDistance.costToGo_grasp, MGGoalDistance.costToGo. rewrite H.
  cbn [MGGoalDistance._all_goals MGGoalDistance._goal_distance MGGoalDistance._max_quality].
  split.
  - destruct (filter _ (MultiGraspGoalSet.getGoals gs)); reflexivity.
  - intros ->. reflexivity.
Qed.

(** ** Further properties of the search *)

Lemma parent_chain_snoc_inv {VD} (parent : VD -> N) (vertex_data : gmap N VD)
    (l : list N) (y : N) :
  forall x,
    parent_chain parent vertex_data x (l ++ [y]) ->
    parent_chain parent vertex_data x l /\
    exists d z, vertex_data !! y = Some d /\ parent d = z /\ list.last (x :: l) = Some z.
Proof.
  induction l as [|a l IH]; intros x H.
  - destruct H as [(d & Hd & Hp) _]. split; [exact I|]. exists d, x. auto.
  - destruct H as [Ha H]. destruct (IH a H) as (Hl & d & z & Hd & Hp & Hz).
    split; [split; assumption|]. exists d, z. repeat split; try assumption.
Qed.

Lemma extractPath_loop_step {VD} (parent : VD -> N) (fuel : nat) (v_start : N)
    (vertex_data : gmap N VD) (v : N) (acc : list N) :
  extractPath_loop parent (S fuel) v_start vertex_data v acc
  = if (v =? v_start)%N then Ok acc
    else match vertex_data !! v with
         | None => Throw out_of_range
         | Some d => extractPath_loop parent fuel v_start vertex_data (parent d) (acc ++ [v])
         end.
Proof. reflexivity. Qed.

(* the walk from the last vertex of [x :: l] down the chain to [x] *)
Lemma extractPath_loop_chain {VD} (parent : VD -> N) (v_start x : N)
    (vertex_data : gmap N VD) (l : list N) :
  forall (fuel : nat) (v : N) (acc : list N),
    parent_chain parent vertex_data x l ->
    list.last (x :: l) = Some v ->
    v_start ∉ l ->
    length l <= fuel ->
    extractPath_loop parent (S fuel) v_start vertex_data v acc
    = extractPath_loop parent (S fuel - length l) v_start vertex_data x (acc ++ rev l).
Proof.
  induction l as [|y l IH] using rev_ind; intros fuel v acc Hc Hlast Hnot Hfuel.
  - simpl in Hlast. injection Hlast as <-. simpl. now rewrite app_nil_r.
  - rewrite app_comm_cons, last_snoc in Hlast. injection Hlast as <-.
    assert (Hne : (y =? v_start)%N = false).
    { apply N.eqb_neq. intros ->. apply Hnot, elem_of_app. right.
      now apply list_elem_of_singleton. }
    rewrite length_app in Hfuel. simpl in Hfuel.
    destruct fuel as [|fuel]; [lia|].
    destruct (parent_chain_snoc_inv _ _ _ _ _ Hc) as (Hl & d & z & Hd & Hp & Hz).
    rewrite extractPath_loop_step, Hne, Hd, Hp.
    rewrite (IH fuel z (acc ++ [y]) Hl Hz).
    + rewrite rev_app_distr, length_app. simpl. rewrite <- app_assoc. simpl.
      replace (S fuel - length l) with (S (S fuel) - (length l + 1)) by lia.
      reflexivity.
    + intros Hin. apply Hnot, elem_of_app. now left.
    + lia.
Qed.

(** X27. [extractPath] walks the parent pointers back from the goal.  Let
    the vertices [l] lead from [x] to [result.goal_node], each with the one
    before it as parent, none of them [v_start].  If [x] is [v_start] the
    call returns, with the path from the start to the goal, [v_start]
    followed by [l], and the other members of the result as they were.  If
    [x] is another vertex and has no vertex data, the call throws
    [out_of_range]. *)
Theorem extractPath_walks_parents {VD} (parent : VD -> N) (fuel : nat) (v_start x : N)
    (vertex_data : gmap N VD) (result : SearchResult) (l : list N) :
  path result = [] ->
  parent_chain parent vertex_data x l ->
  list.last (x :: l) = Some (goal_node result) ->
  v_start ∉ l ->
  length l <= fuel ->
  (x = v_start ->
   extractPath parent (S fuel) v_start vertex_data result
   = Ok (mkSearchResult (solved result) (v_start :: l) (path_cost result)
           (goal_cost result) (goal_node result))) /\
  (x <> v_start -> vertex_data !! x = None ->
   extractPath parent (S fuel) v_start vertex_data result = Throw out_of_range).
Proof.
  intros Hempty Hc Hlast Hnot Hfuel.
  unfold extractPath.
  rewrite (extractPath_loop_chain parent v_start x vertex_data l fuel _ _ Hc Hlast Hnot Hfuel).
  rewrite Hempty, app_nil_l.
  destruct (S fuel - length l) as [|f] eqn:Ef; [lia|].
  split.
  - intros ->. rewrite extractPath_loop_step, N.eqb_refl. cbn [rbind].
    rewrite rev_app_distr, rev_involutive. reflexivity.
  - intros Hne Hnone. rewrite extractPath_loop_step.
    apply N.eqb_neq in Hne. rewrite Hne, Hnone. reflexivity.
Qed.

Lemma extractPath_walks_parents_witness :
  extractPath LPAStar.p 3 0 Samples.parents Samples.found
  = Ok (mkSearchResult (solved Samples.found) [0%N; 1%N; 2%N] (path_cost Samples.found)
          (goal_cost Samples.found) (goal_node Samples.found)) /\
  extractPath LPAStar.p 3 0 Samples.orphans Samples.found = Throw out_of_range.
Proof.
  split.
  - apply (extractPath_walks_parents LPAStar.p 2 0 0 Samples.parents Samples.found
             [1%N; 2%N]).
    + reflexivity.
    + simpl. repeat split; eexists; (split; [vm_compute; reflexivity|reflexivity]).
    + reflexivity.
    + intros H. apply elem_of_cons in H. destruct H as [H|H]; [discriminate|].
      apply elem_of_cons in H. destruct H as [H|H]; [discriminate|].
      now apply elem_of_nil in H.
    + simpl. lia.
    + reflexivity.
  - apply (extractPath_walks_parents LPAStar.p 2 0 1 Samples.orphans Samples.found
             [2%N]).
    + reflexivity.
    + simpl. repeat split. eexists. split; [vm_compute; reflexivity|reflexivity].
    + reflexivity.
    + intros H. apply elem_of_cons in H. destruct H as [H|H]; [discriminate|].
      now apply elem_of_nil in H.
    + simpl. lia.
    + discriminate.
    + vm_compute. reflexivity.
Defined.

(** ** Further properties of the solution extraction *)

Lemma waypoints_folded_filter (rm : Roadmap.Roadmap)
    (getGraspRoadmapId : N -> (N * N) * bool) (vids : list N) :
  forall st,
    MGGraphSearchMP.waypoints_folded rm getGraspRoadmapId vids st
    = (wp <~ MGGraphSearchMP.waypoints rm (fun v => (getGraspRoadmapId v).1)
               (filter (fun v => (getGraspRoadmapId v).2 = true) vids) st.2;;
       Ok (match list.last (filter (fun v => (getGraspRoadmapId v).2 = true) vids) with
           | Some v => Some (getGraspRoadmapId v).1
           | None => st.1
           end, wp)).
Proof.
  induction vids as [|vid rest IH]; intros [o wp]; [reflexivity|].
  cbn [MGGraphSearchMP.waypoints_folded]. rewrite filter_cons.
  destruct ((getGraspRoadmapId vid).2) eqn:E.
  - rewrite decide_True by reflexivity. cbn [MGGraphSearchMP.waypoints snd].
    destruct (MGGraphSearchMP.push_config rm (getGraspRoadmapId vid).1.1 wp) as [wp'| | |];
      cbn [rbind]; try reflexivity.
    rewrite IH. cbn [fst snd].
    destruct (MGGraphSearchMP.waypoints rm _ _ wp'); cbn [rbind]; try reflexivity.
    rewrite last_cons. destruct (list.last (filter _ rest)); reflexivity.
  - rewrite decide_False by discriminate. apply IH.
Qed.

Lemma filter_rev {A} (P : A -> Prop) `{!forall x, Decision (P x)} (l : list A) :
  filter P (rev l) = rev (filter P l).
Proof.
  induction l as [|x l IH]; [reflexivity|].
  simpl. rewrite filter_app, IH, filter_cons.
  destruct (decide (P x)).
  - rewrite filter_cons, decide_True by assumption. reflexivity.
  - rewrite filter_cons, decide_False by assumption. simpl. now rewrite app_nil_r.
Qed.

(** X28. The [extractSolution] overload for the folded graph is the generic
    one run on the reversed path without the vertices that have no valid
    grasp: the waypoints come out from the last such vertex of [sr.path] to
    the first, the goal is looked up for the first one, and the call fails
    in the same way, in particular when no vertex has a valid grasp. *)
Theorem extractSolution_folded_reverses (rm : Roadmap.Roadmap) (gs : MultiGraspGoalSet.t)
    (getGraspRoadmapId : N -> (N * N) * bool) (sr : SearchResult) :
  MGGraphSearchMP.extractSolution_folded rm gs getGraspRoadmapId sr
  = MGGraphSearchMP.extractSolution rm gs (fun v => (getGraspRoadmapId v).1)
      (mkSearchResult (solved sr)
         (rev (filter (fun v => (getGraspRoadmapId v).2 = true) (path sr)))
         (path_cost sr) (goal_cost sr) (goal_node sr)).
Proof.
  unfold MGGraphSearchMP.extractSolution_folded, MGGraphSearchMP.extractSolution.
  rewrite waypoints_folded_filter. cbn [path fst snd]. rewrite filter_rev.
  destruct (MGGraphSearchMP.waypoints rm _ _ []) as [wp| | |]; cbn [rbind]; try reflexivity.
  cbn [fst snd].
  destruct (list.last _) as [v|]; reflexivity.
Qed.

(* a path through the vertices 2, 1, 0 of which 1 has no valid grasp: the
   waypoints are those of 0 and 2, in that order, and the goal is that of 2 *)
Lemma extractSolution_folded_sample :
  MGGraphSearchMP.extractSolution_folded
    (Roadmap.addNode [7%Q] Samples.free_rm).2
    (MultiGraspGoalSet.mk {[ 7%N := Samples.goal_a ]} {[ 7%N := 2%N ]} {[ 2%N := 7%N ]})
    (fun v => ((v, 1%N), negb (v =? 1)%N)) (mkSearchResult true [2%N; 1%N; 0%N] (Fin 1) (Fin 2) 2)
  = Ok (Solution.mk 7 [[0%Q]; [7%Q]] (Fin 3)).
Proof. vm_compute. reflexivity. Qed.

(** ** Further properties of LPA* *)

Lemma same_values_refl (d : LPAStar.VertexData) : same_values d d.
Proof. repeat split. Qed.

Lemma same_values_trans (d1 d2 d3 : LPAStar.VertexData) :
  same_values d1 d2 -> same_values d2 d3 -> same_values d1 d3.
Proof.
  intros (A1 & A2 & A3 & A4 & A5) (B1 & B2 & B3 & B4 & B5).
  repeat split; congruence.
Qed.

Lemma upd_vertex_same_values (x : N) (f : LPAStar.VertexData -> LPAStar.VertexData)
    (st : LPAStar.LPAStarAlgorithm) :
  (forall d, same_values d (f d)) ->
  forall y d, LPAStar._vertex_data st !! y = Some d ->
    exists d', LPAStar._vertex_data (LPAStar.upd_vertex x f st) !! y = Some d' /\
               same_values d d'.
Proof.
  intros Hf y d Hy. unfold LPAStar.upd_vertex. simpl.
  destruct (decide (y = x)) as [->|Hne].
  - rewrite lookup_alter_eq, Hy. simpl. eauto.
  - rewrite lookup_alter_ne by congruence. exists d. split; [exact Hy|apply same_values_refl].
Qed.

(* updateVertexKey touches the queue, the queue flags and the goal record
   only *)
Lemma updateVertexKey_keeps_values (key_lt : LPAStar.Key -> LPAStar.Key -> bool)
    (G : LPAStar.Graph) (x : N) (st st' : LPAStar.LPAStarAlgorithm) :
  LPAStar.updateVertexKey key_lt G x st = Ok st' ->
  LPAStar._lazy st' = LPAStar._lazy st /\
  forall y d, LPAStar._vertex_data st !! y = Some d ->
    exists d', LPAStar._vertex_data st' !! y = Some d' /\ same_values d d'.
Proof.
  unfold LPAStar.updateVertexKey.
  destruct (LPAStar.updateMembership key_lt x st) as [st1| | |] eqn:Hm; cbn [rbind];
    try discriminate.
  intros Hg.
  assert (H1 : LPAStar._lazy st1 = LPAStar._lazy st /\
               forall y d, LPAStar._vertex_data st !! y = Some d ->
                 exists d', LPAStar._vertex_data st1 !! y = Some d' /\ same_values d d').
  { unfold LPAStar.updateMembership in Hm.
    destruct (LPAStar.vertex st x) as [d0| | |]; cbn [rbind] in Hm; try discriminate.
    destruct (neb (LPAStar.g d0) (LPAStar.rhs d0) && LPAStar.in_pq d0).
    { destruct (LPAStar.pq_key _ _); cbn [rbind] in Hm; try discriminate.
      destruct (LPAStar.pq_update _ _ _); cbn [rbind] in Hm; try discriminate.
      injection Hm as <-. split; [reflexivity|]. intros y d Hy. exists d.
      split; [exact Hy|apply same_values_refl]. }
    destruct (neb (LPAStar.g d0) (LPAStar.rhs d0) && negb (LPAStar.in_pq d0)).
    { injection Hm as <-. split; [reflexivity|]. intros y d Hy.
      apply (upd_vertex_same_values x _ (LPAStar.with_pq _ st)); [|exact Hy].
      intros d1. repeat split. }
    destruct (eqb (LPAStar.g d0) (LPAStar.rhs d0) && LPAStar.in_pq d0).
    { destruct (LPAStar.pq_update _ _ _); cbn [rbind] in Hm; try discriminate.
      destruct (LPAStar.pq_pop _ _); cbn [rbind] in Hm; try discriminate.
      injection Hm as <-. split; [reflexivity|]. intros y d Hy.
      apply (upd_vertex_same_values x _ (LPAStar.with_pq _ st)); [|exact Hy].
      intros d1. repeat split. }
    injection Hm as <-. split; [reflexivity|]. intros y d Hy. exists d.
    split; [exact Hy|apply same_values_refl]. }
  assert (H2 : LPAStar._lazy st' = LPAStar._lazy st1 /\
               LPAStar._vertex_data st' = LPAStar._vertex_data st1).
  { unfold LPAStar.updateGoal in Hg.
    destruct (LPAStar.vertex st1 x) as [d0| | |]; cbn [rbind] in Hg; try discriminate.
    destruct (LPAStar.isGoal G (LPAStar.v d0)).
    - destruct (key_lt _ _); injection Hg as <-; split; reflexivity.
    - injection Hg as <-. split; reflexivity. }
  destruct H1 as [L1 V1], H2 as [L2 V2]. split; [congruence|].
  rewrite V2. exact V1.
Qed.

Lemma ltb_irrefl (x : dbl) : ltb x x = false.
Proof.
  destruct x; simpl; try reflexivity. apply Qltb_false. lra.
Qed.

Lemma ltb_asym (x y : dbl) : ltb x y = true -> ltb y x = false.
Proof.
  destruct x, y; simpl; try discriminate; try reflexivity.
  intros H. apply Qltb_true in H. apply Qltb_false. lra.
Qed.

Lemma ltb_trans (x y z : dbl) : ltb x y = true -> ltb y z = true -> ltb x z = true.
Proof.
  destruct x, y, z; simpl; try discriminate; try reflexivity.
  intros H1 H2. apply Qltb_true in H1. apply Qltb_true in H2.
  unfold Qltb. destruct (Qle_bool q1 q) eqn:E; [|reflexivity].
  apply Qle_bool_iff in E. lra.
Qed.

(** X29. [handleCostDecrease(u, v)] lowers [rhs(v)] to the cost through [u]
    when that is cheaper, and changes nothing else of the search values: if
    [rhs(v) > g(u) + c(u, v)] then [rhs(v)] becomes [g(u) + c(u, v)] and [u]
    the parent of [v], otherwise both stay; [g(v)] and the values of every
    other vertex are kept.  The edge cost is read with the graph's default
    laziness, not with the algorithm's [_lazy]. *)
Theorem handleCostDecrease_lowers_rhs (key_lt : LPAStar.Key -> LPAStar.Key -> bool)
    (G : LPAStar.Graph) (u x : N) (st st' : LPAStar.LPAStarAlgorithm)
    (ud xd : LPAStar.VertexData) :
  LPAStar._vertex_data st !! u = Some ud ->
  LPAStar._vertex_data st !! x = Some xd ->
  LPAStar.handleCostDecrease key_lt G u x st = Ok st' ->
  (exists xd',
     LPAStar._vertex_data st' !! x = Some xd' /\
     LPAStar.g xd' = LPAStar.g xd /\
     (LPAStar.rhs xd', LPAStar.p xd')
     = if gtb (LPAStar.rhs xd)
            (add (LPAStar.g ud)
               (LPAStar.getEdgeCost G (LPAStar.v ud) (LPAStar.v xd) (LPAStar.lazy_default G)))
       then (add (LPAStar.g ud)
               (LPAStar.getEdgeCost G (LPAStar.v ud) (LPAStar.v xd) (LPAStar.lazy_default G)),
             LPAStar.v ud)
       else (LPAStar.rhs xd, LPAStar.p xd)) /\
  (forall y d, y <> x -> LPAStar._vertex_data st !! y = Some d ->
     exists d', LPAStar._vertex_data st' !! y = Some d' /\ same_values d d').
Proof.
  intros Hu Hx. unfold LPAStar.handleCostDecrease, LPAStar.vertex.
  rewrite Hu, Hx. cbn [rbind].
  destruct (gtb _ _) eqn:E.
  - intros Hk. apply updateVertexKey_keeps_values in Hk. destruct Hk as [_ Hk]. split.
    + destruct (Hk x (LPAStar.set_rhs_p
                        (add (LPAStar.g ud)
                           (LPAStar.getEdgeCost G (LPAStar.v ud) (LPAStar.v xd)
                              (LPAStar.lazy_default G)))
                        (LPAStar.v ud) xd)) as (xd' & Hx' & S1 & S2 & S3 & S4 & S5).
      { simpl. rewrite lookup_alter_eq, Hx. reflexivity. }
      exists xd'. split; [exact Hx'|]. split; [exact S2|].
      rewrite S4, S5. reflexivity.
    + intros y d Hne Hy. apply Hk. simpl. now rewrite lookup_alter_ne by congruence.
  - intros [= <-]. split.
    + exists xd. auto.
    + intros y d _ Hy. exists d. split; [exact Hy|apply same_values_refl].
Qed.

Lemma getVertexData_keeps (G : LPAStar.Graph) (s : N) (st : LPAStar.LPAStarAlgorithm) :
  LPAStar._lazy (LPAStar.getVertexData G s st) = LPAStar._lazy st /\
  (forall y d, LPAStar._vertex_data st !! y = Some d ->
               LPAStar._vertex_data (LPAStar.getVertexData G s st) !! y = Some d) /\
  is_Some (LPAStar._vertex_data (LPAStar.getVertexData G s st) !! s).
Proof.
  unfold LPAStar.getVertexData.
  destruct (LPAStar._vertex_data st !! s) as [sd|] eqn:E.
  - repeat split; [auto|]. rewrite E. eauto.
  - simpl. repeat split.
    + intros y d Hy. rewrite lookup_insert_ne; [exact Hy|congruence].
    + rewrite lookup_insert_eq. eauto.
Qed.

Lemma reparent_lowers_rhs (G : LPAStar.Graph) (x : N) (preds : list N) :
  forall (st st' : LPAStar.LPAStarAlgorithm) (xd : LPAStar.VertexData),
    LPAStar._vertex_data st !! x = Some xd ->
    LPAStar.reparent G x preds st = Ok st' ->
    LPAStar._lazy st' = LPAStar._lazy st /\
    (exists xd',
       LPAStar._vertex_data st' !! x = Some xd' /\
       LPAStar.v xd' = LPAStar.v xd /\ LPAStar.g xd' = LPAStar.g xd /\
       ((LPAStar.rhs xd' = LPAStar.rhs xd /\ LPAStar.p xd' = LPAStar.p xd) \/
        (ltb (LPAStar.rhs xd') (LPAStar.rhs xd) = true /\ LPAStar.p xd' ∈ preds))) /\
    (forall y d, y <> x -> LPAStar._vertex_data st !! y = Some d ->
                 LPAStar._vertex_data st' !! y = Some d).
Proof.
  induction preds as [|s rest IH]; intros st st' xd Hx Hrun.
  - injection Hrun as <-. split; [reflexivity|]. split; [|auto].
    exists xd. repeat split; auto.
  - cbn [LPAStar.reparent] in Hrun.
    destruct (getVertexData_keeps G s st) as (Hlazy & Hkeep & [sd Hs]).
    set (st1 := LPAStar.getVertexData G s st) in *.
    unfold LPAStar.vertex in Hrun. rewrite Hs, (Hkeep x xd Hx) in Hrun. cbn [rbind] in Hrun.
    destruct (ltb _ (LPAStar.rhs xd)) eqn:Hlt.
    + apply (IH _ _ (LPAStar.set_rhs_p
                      (add (LPAStar.g sd)
                         (LPAStar.getEdgeCost G s (LPAStar.v xd) (LPAStar._lazy st1))) s xd))
        in Hrun.
      2:{ simpl. rewrite lookup_alter_eq, (Hkeep x xd Hx). reflexivity. }
      destruct Hrun as (Hl & (xd' & Hx' & Hv & Hg & Hcase) & Hother).
      split; [simpl in Hl; congruence|]. split.
      * exists xd'. split; [exact Hx'|]. split; [exact Hv|]. split; [exact Hg|].
        right. cbn [LPAStar.rhs LPAStar.p LPAStar.set_rhs_p] in Hcase.
        destruct Hcase as [[Hr Hp]|[Hr Hp]].
        -- rewrite Hr, Hp. split; [exact Hlt|]. apply elem_of_cons. now left.
        -- split; [eapply ltb_trans; eassumption|]. apply elem_of_cons. now right.
      * intros y d Hne Hy. apply Hother; [exact Hne|].
        simpl. rewrite lookup_alter_ne by congruence. now apply Hkeep.
    + apply (IH _ _ xd (Hkeep x xd Hx)) in Hrun.
      destruct Hrun as (Hl & (xd' & Hx' & Hv & Hg & Hcase) & Hother).
      split; [congruence|]. split.
      * exists xd'. split; [exact Hx'|]. split; [exact Hv|]. split; [exact Hg|].
        destruct Hcase as [Hc|[Hr Hp]]; [now left|].
        right. split; [exact Hr|]. apply elem_of_cons. now right.
      * intros y d Hne Hy. apply Hother; [exact Hne|]. now apply Hkeep.
Qed.

(** X30. [handleCostIncrease(u, v)] never raises [rhs(v)]: when [u] is the
    parent of [v] it only looks for a predecessor that gives a lower
    [rhs(v)] than the stored one.  After the call either [rhs(v)] and the
    parent are as before, or [rhs(v)] is strictly lower and the parent is
    one of the predecessors of [v]; [g(v)] is kept. *)
Theorem handleCostIncrease_never_raises_rhs (key_lt : LPAStar.Key -> LPAStar.Key -> bool)
    (G : LPAStar.Graph) (u x : N) (st st' : LPAStar.LPAStarAlgorithm)
    (xd : LPAStar.VertexData) :
  LPAStar._vertex_data st !! x = Some xd ->
  LPAStar.handleCostIncrease key_lt G u x st = Ok st' ->
  exists xd',
    LPAStar._vertex_data st' !! x = Some xd' /\
    LPAStar.g xd' = LPAStar.g xd /\
    ltb (LPAStar.rhs xd) (LPAStar.rhs xd') = false /\
    ((LPAStar.rhs xd' = LPAStar.rhs xd /\ LPAStar.p xd' = LPAStar.p xd) \/
     (ltb (LPAStar.rhs xd') (LPAStar.rhs xd) = true /\
      LPAStar.p xd' ∈ LPAStar.getPredecessors G (LPAStar.v xd) (LPAStar._lazy st))).
Proof.
  intros Hx. unfold LPAStar.handleCostIncrease, LPAStar.vertex.
  destruct (LPAStar._vertex_data st !! u) as [ud|]; cbn [rbind]; [|discriminate].
  rewrite Hx. cbn [rbind].
  destruct (LPAStar.p xd =? LPAStar.v ud)%N.
  - destruct (LPAStar.reparent G x _ st) as [st1| | |] eqn:Hr; cbn [rbind]; try discriminate.
    intros Hk.
    destruct (reparent_lowers_rhs G x _ st st1 xd Hx Hr)
      as (_ & (xd1 & Hx1 & _ & Hg1 & Hcase) & _).
    apply updateVertexKey_keeps_values in Hk. destruct Hk as [_ Hk].
    destruct (Hk x xd1 Hx1) as (xd' & Hx' & S1 & S2 & S3 & S4 & S5).
    exists xd'. split; [exact Hx'|]. split; [congruence|].
    rewrite S4, S5. split.
    + destruct Hcase as [[Hr1 _]|[Hr1 _]].
      * rewrite Hr1. apply ltb_irrefl.
      * now apply ltb_asym.
    + exact Hcase.
  - intros [= <-]. exists xd. split; [exact Hx|]. split; [reflexivity|].
    split; [apply ltb_irrefl|]. now left.
Qed.

Lemma handleCostDecrease_lowers_rhs_witness :
  (exists xd',
     LPAStar._vertex_data Samples.decreased !! 1%N = Some xd' /\
     LPAStar.g xd' = PInf /\
     (LPAStar.rhs xd', LPAStar.p xd') = (Fin (0 + 5), 0%N)) /\
  (forall y d, y <> 1%N -> LPAStar._vertex_data Samples.known !! y = Some d ->
     exists d', LPAStar._vertex_data Samples.decreased !! y = Some d' /\ same_values d d').
Proof.
  apply (handleCostDecrease_lowers_rhs LPAStar.lex_lt Samples.chain 0 1
           Samples.known Samples.decreased
           (LPAStar.mkVertexData 0 (Fin 0) (Fin 0) (Fin 0) 0 false (Some 0%N))
           (LPAStar.mkVertexData 1 PInf (Fin 0) PInf 1 false None)).
  - vm_compute. reflexivity.
  - vm_compute. reflexivity.
  - vm_compute. reflexivity.
Defined.

Lemma handleCostIncrease_never_raises_rhs_witness :
  exists xd',
    LPAStar._vertex_data Samples.increased !! 1%N = Some xd' /\
    LPAStar.g xd' = PInf /\
    ltb (Fin (0 + 5)) (LPAStar.rhs xd') = false /\
    ((LPAStar.rhs xd' = Fin (0 + 5) /\ LPAStar.p xd' = 0%N) \/
     (ltb (LPAStar.rhs xd') (Fin (0 + 5)) = true /\
      LPAStar.p xd' ∈ LPAStar.getPredecessors Samples.chain 1
                        (LPAStar._lazy Samples.decreased))).
Proof.
  apply (handleCostIncrease_never_raises_rhs LPAStar.lex_lt Samples.chain 0 1
           Samples.decreased Samples.increased
           (LPAStar.mkVertexData 1 PInf (Fin 0) (Fin (0 + 5)) 0 true (Some 1%N))).
  - vm_compute. reflexivity.
  - vm_compute. reflexivity.
Defined.
